(** * codemcp rules engine: a shallow embedding of [src/codemcp/rules.py]

    The Python module is embedded function by function.  Python [str]
    values are Rocq strings whose characters are read as code points
    below 256; the parts of the Python standard library the module calls
    ([str] methods, [posixpath], [pathlib]) are written out from their
    reference implementations, and the file system and [fnmatch] are
    oracles carried in an environment record. *)

From Stdlib Require Import Ascii String List Bool Arith Lia.
From stdpp Require Import base decidable option list gmap strings.

Local Open Scope string_scope.
Local Open Scope list_scope.

(** ** Python [str] methods *)

Module PyStr.

(** [s.startswith(p)] *)
Definition startswith (s p : string) : bool := String.prefix p s.

(** [list(s)] and back, used by the methods that work from the right end *)
Definition chars (s : string) : list ascii := list_ascii_of_string s.
Definition of_chars (l : list ascii) : string := string_of_list_ascii l.

(** [s[::-1]] *)
Definition reverse (s : string) : string := of_chars (rev (chars s)).

(** [s.endswith(p)] *)
Definition endswith (s p : string) : bool :=
  String.prefix (reverse p) (reverse s).

(** [p in s] *)
Fixpoint contains (p s : string) : bool :=
  String.prefix p s ||
  match s with
  | EmptyString => false
  | String _ s' => contains p s'
  end.

(** [s[n:]] *)
Fixpoint drop (n : nat) (s : string) : string :=
  match n, s with
  | O, _ => s
  | S _, EmptyString => EmptyString
  | S k, String _ s' => drop k s'
  end.

(** The scan behind [s.split(sep)] for a non-empty [sep]: the piece under
    construction and the pieces after it.  [skip] counts the characters
    of a separator occurrence that are still to be passed over. *)
Fixpoint split_from (sep : string) (skip : nat) (s : string)
  : string * list string :=
  match s with
  | EmptyString => (EmptyString, [])
  | String c s' =>
      match skip with
      | S k => split_from sep k s'
      | O =>
          if String.prefix sep s
          then let '(h, t) := split_from sep (String.length sep - 1) s' in
               (EmptyString, h :: t)
          else let '(h, t) := split_from sep 0 s' in (String c h, t)
      end
  end.

(** [s.split(sep)] *)
Definition split (s sep : string) : list string :=
  let '(h, t) := split_from sep 0 s in h :: t.

(** [s.partition(sep)] when [sep] occurs in [s]: the text before its
    first occurrence and the text after it *)
Fixpoint partition (s sep : string) : option (string * string) :=
  if String.prefix sep s then Some (EmptyString, drop (String.length sep) s)
  else match s with
       | EmptyString => None
       | String c s' =>
           match partition s' sep with
           | Some (a, b) => Some (String c a, b)
           | None => None
           end
       end.

(** [s.split(sep, 1)] *)
Fixpoint split1 (s sep : string) : list string :=
  match s with
  | EmptyString => [EmptyString]
  | String c s' =>
      if String.prefix sep s then [EmptyString; drop (String.length sep) s]
      else match split1 s' sep with
           | h :: t => String c h :: t
           | [] => []
           end
  end.

(** [sep.join(l)] *)
Fixpoint join (sep : string) (l : list string) : string :=
  match l with
  | [] => EmptyString
  | [x] => x
  | x :: rest => x +:+ sep +:+ join sep rest
  end.

(** [c.isspace()] for a code point below 256 *)
Definition isspace (c : ascii) : bool :=
  let n := nat_of_ascii c in
  (((9 <=? n) && (n <=? 13)) || ((28 <=? n) && (n <=? 32))
   || (n =? 133) || (n =? 160))%nat.

(** [s.lstrip()], [s.rstrip()], [s.strip()] *)
Fixpoint lstrip (s : string) : string :=
  match s with
  | EmptyString => EmptyString
  | String c s' => if isspace c then lstrip s' else s
  end.

Definition rstrip (s : string) : string := reverse (lstrip (reverse s)).

Definition strip (s : string) : string := rstrip (lstrip s).

(** [c.lower()] for a code point below 256 *)
Definition lower_char (c : ascii) : ascii :=
  let n := nat_of_ascii c in
  if (((65 <=? n) && (n <=? 90))
      || ((192 <=? n) && (n <=? 222) && negb (n =? 215)))%nat
  then ascii_of_nat (n + 32) else c.

(** [s.lower()] *)
Fixpoint lower (s : string) : string :=
  match s with
  | EmptyString => EmptyString
  | String c s' => String (lower_char c) (lower s')
  end.

(** [bool(s)] *)
Definition truthy (s : string) : bool :=
  match s with EmptyString => false | _ => true end.

End PyStr.

(** ** Results of calls that may raise *)

Inductive exn : Type :=
| ValueError.

(** A call returns a value, raises, or (for the one loop that is run on a
    step budget below) runs out of budget. *)
Inductive outcome (A : Type) : Type :=
| Ok (a : A)
| Raise (e : exn)
| OutOfFuel.

Arguments Ok {A} a.
Arguments Raise {A} e.
Arguments OutOfFuel {A}.

(** ** [posixpath] *)

Module PosixPath.

Import PyStr.

(** One step of [join(a, *p)]: [path] joined with the next component [b] *)
Definition join2 (path b : string) : string :=
  if startswith b "/" then b
  else if negb (truthy path) || endswith path "/" then path +:+ b
  else path +:+ "/" +:+ b.

(** [os.path.join(a, *p)] *)
Definition join (a : string) (p : list string) : string :=
  fold_left join2 p a.

Definition is_sep (c : ascii) : bool := Ascii.eqb c "/"%char.

(** [p[:p.rfind("/") + 1]] *)
Fixpoint upto_last_sep (p : string) : string :=
  match p with
  | EmptyString => EmptyString
  | String c p' =>
      if contains "/" p' then String c (upto_last_sep p')
      else if is_sep c then "/" else EmptyString
  end.

(** [head == sep * len(head)] *)
Fixpoint all_sep (head : string) : bool :=
  match head with
  | EmptyString => true
  | String c s' => is_sep c && all_sep s'
  end.

(** [head.rstrip(sep)] *)
Fixpoint rstrip_sep (head : string) : string :=
  match head with
  | EmptyString => EmptyString
  | String c s' =>
      match rstrip_sep s' with
      | EmptyString => if is_sep c then EmptyString else String c EmptyString
      | r => String c r
      end
  end.

(** [os.path.dirname(p)] *)
Definition dirname (p : string) : string :=
  let head := upto_last_sep p in
  if truthy head && negb (all_sep head) then rstrip_sep head else head.

(** The body of the loop over components in [normpath] *)
Definition normpath_step (initial_slashes : nat) (new_comps : list string)
    (comp : string) : list string :=
  if String.eqb comp "" || String.eqb comp "." then new_comps
  else if negb (String.eqb comp "..")
          || (Nat.eqb initial_slashes 0 && bool_decide (new_comps = []))
          || bool_decide (last new_comps = Some "..")
       then new_comps ++ [comp]
       else removelast new_comps.

(** [sep * n] *)
Fixpoint seps (n : nat) : string :=
  match n with O => EmptyString | S k => "/" +:+ seps k end.

(** [os.path.normpath(path)] *)
Definition normpath (path : string) : string :=
  if String.eqb path "" then "."
  else
    let initial_slashes :=
      if startswith path "/"
      then if startswith path "//" && negb (startswith path "///")
           then 2 else 1
      else 0 in
    let comps :=
      fold_left (normpath_step initial_slashes) (split path "/") [] in
    let path := seps initial_slashes +:+ PyStr.join "/" comps in
    if truthy path then path else ".".

(** [os.path.abspath(path)], with the working directory made explicit *)
Definition abspath (cwd path : string) : string :=
  normpath (if startswith path "/" then path else join2 cwd path).

(** [genericpath.commonprefix] on two component lists *)
Fixpoint commonprefix (l1 l2 : list string) : list string :=
  match l1, l2 with
  | x :: l1', y :: l2' =>
      if String.eqb x y then x :: commonprefix l1' l2' else []
  | _, _ => []
  end.

(** [os.path.relpath(path, start)] *)
Definition relpath (cwd path start : string) : outcome string :=
  if negb (truthy path) then Raise ValueError
  else
    let start_list := List.filter truthy (split (abspath cwd start) "/") in
    let path_list := List.filter truthy (split (abspath cwd path) "/") in
    let i := length (commonprefix start_list path_list) in
    let rel_list :=
      repeat ".." (length start_list - i) ++ skipn i path_list in
    match rel_list with
    | [] => Ok "."
    | a :: p => Ok (join a p)
    end.

End PosixPath.

(** ** [pathlib.PurePosixPath] *)

Module PathLib.

Import PyStr.

Record PurePath : Type := { root : string; tail : list string }.

(** [posixpath.splitroot(p)] without the (empty) drive *)
Definition splitroot (p : string) : string * string :=
  if negb (startswith p "/") then (EmptyString, p)
  else if negb (startswith (drop 1 p) "/") || startswith (drop 2 p) "/"
       then ("/", drop 1 p)
       else ("//", drop 2 p).

(** [Path(s)] *)
Definition Path (s : string) : PurePath :=
  if truthy s then
    let '(rt, rel) := splitroot s in
    {| root := rt;
       tail := List.filter (fun x => truthy x && negb (String.eqb x "."))
                 (split rel "/") |}
  else {| root := EmptyString; tail := [] |}.

(** [path.name] *)
Definition name (path : PurePath) : string :=
  match last (tail path) with
  | Some x => x
  | None => EmptyString
  end.

(** [str(path)] *)
Definition str (path : PurePath) : string :=
  let s := root path +:+ PyStr.join "/" (tail path) in
  if truthy s then s else ".".

End PathLib.

(** ** The environment of a call *)

(** What the module reads from outside itself: the working directory, the
    file system as [os.path.isdir], [os.walk] and [open(...).read()] see
    it, and [fnmatch.fnmatch].  [walk top] lists, top-down, each directory
    under [top] with the names of its files; [read_text] is [None] when
    opening or decoding the file raises. *)
Record Env : Type := {
  getcwd : string;
  isdir : string -> bool;
  walk : string -> list (string * list string);
  read_text : string -> option string;
  fnmatch : string -> string -> bool
}.

(** ** [match_file_with_glob] *)

Section Matching.

Import PyStr.

Variable env : Env.

Definition match_file_with_glob (file_path glob_pattern : string)
  : outcome bool :=
  let path := PathLib.Path file_path in
  let file_name := PathLib.name path in
  if startswith glob_pattern "*." then
    Ok (endswith file_name (drop 1 glob_pattern))
  else if String.eqb glob_pattern "**/*.js"
          || String.eqb glob_pattern "**/*.jsx" then
    let ext := default EmptyString (last (split glob_pattern ".")) in
    Ok (endswith file_name ("." +:+ ext))
  else if contains "/" glob_pattern && contains "**" glob_pattern then
    match split glob_pattern "/**/" with
    | [dir_part; file_part] =>
        if startswith file_part "*"
           && negb (endswith file_name (drop 1 file_part))
        then Ok false
        else Ok (contains dir_part (PathLib.str path))
    | _ => Raise ValueError
    end
  else Ok (fnmatch env file_name glob_pattern).

End Matching.

(** ** [Rule] and [load_rule_from_file] *)

Record Rule : Type := {
  description : option string;
  globs : list string;
  always_apply : bool;
  payload : string;
  file_path : string
}.

Section Loading.

Import PyStr.

Variable env : Env.

Definition nl : string := String (ascii_of_nat 10) EmptyString.

(** The [re.match] call with [re.DOTALL]: the text must open with a line
    of three dashes; the lazy group 1 runs up to the first later line of
    three dashes, and the greedy group 2 is all that follows that line. *)
Definition frontmatter_match (content : string) : option (string * string) :=
  if startswith content ("---" +:+ nl)
  then partition (drop 4 content) (nl +:+ "---" +:+ nl)
  else None.

(** The loop that fills the [frontmatter] dict *)
Definition frontmatter_line (frontmatter : gmap string string)
    (line : string) : gmap string string :=
  if contains ":" line then
    match split1 line ":" with
    | [key; value] => <[strip key := strip value]> frontmatter
    | _ => frontmatter
    end
  else frontmatter.

Definition parse_frontmatter (frontmatter_text : string)
  : gmap string string :=
  fold_left frontmatter_line (split (strip frontmatter_text) nl) ∅.

Definition load_rule_from_file (file_path : string) : option Rule :=
  match read_text env file_path with
  | None => None
  | Some content =>
      match frontmatter_match content with
      | None => None
      | Some (frontmatter_text, body) =>
          let payload := strip body in
          let frontmatter := parse_frontmatter frontmatter_text in
          let description := frontmatter !! "description" in
          let globs :=
            match frontmatter !! "globs" with
            | Some globs_value =>
                if truthy globs_value
                then List.map strip (split globs_value ",")
                else []
            | None => []
            end in
          let always_apply_value :=
            default "false" (frontmatter !! "alwaysApply") in
          let always_apply := String.eqb (lower always_apply_value) "true" in
          Some {| description := description;
                  globs := globs;
                  always_apply := always_apply;
                  payload := payload;
                  file_path := file_path |}
      end
  end.

End Loading.

(** ** [find_applicable_rules] *)

(** The local variables of one call, with two logs of what the call did:
    the directories the upward walk stopped at and the arguments of its
    [load_rule_from_file] calls, both in order. *)
Record Locals : Type := {
  applicable_rules : list Rule;
  suggested_rules : list (string * string);
  processed_rule_files : gset string;
  visited_dirs : list string;
  loaded_files : list string
}.

Definition M (A : Type) : Type := Locals -> outcome A * Locals.

#[global] Instance M_ret : MRet M := fun A a st => (Ok a, st).

#[global] Instance M_bind : MBind M := fun A B k m st =>
  match m st with
  | (Ok a, st') => k a st'
  | (Raise e, st') => (Raise e, st')
  | (OutOfFuel, st') => (OutOfFuel, st')
  end.

Definition lift {A} (o : outcome A) : M A := fun st => (o, st).

Definition modify (f : Locals -> Locals) : M unit := fun st => (Ok tt, f st).

(** [for x in xs: body(x)] *)
Fixpoint for_each {X} (xs : list X) (body : X -> M unit) : M unit :=
  match xs with
  | [] => mret tt
  | x :: xs' => body x ;; for_each xs' body
  end.

Definition append_applicable (rule : Rule) (st : Locals) : Locals :=
  {| applicable_rules := applicable_rules st ++ [rule];
     suggested_rules := suggested_rules st;
     processed_rule_files := processed_rule_files st;
     visited_dirs := visited_dirs st;
     loaded_files := loaded_files st |}.

Definition append_suggested (d p : string) (st : Locals) : Locals :=
  {| applicable_rules := applicable_rules st;
     suggested_rules := suggested_rules st ++ [(d, p)];
     processed_rule_files := processed_rule_files st;
     visited_dirs := visited_dirs st;
     loaded_files := loaded_files st |}.

(** [processed_rule_files.add(p)], followed by the call that loads [p] *)
Definition mark_processed (p : string) (st : Locals) : Locals :=
  {| applicable_rules := applicable_rules st;
     suggested_rules := suggested_rules st;
     processed_rule_files := {[p]} ∪ processed_rule_files st;
     visited_dirs := visited_dirs st;
     loaded_files := loaded_files st ++ [p] |}.

Definition enter_dir (d : string) (st : Locals) : Locals :=
  {| applicable_rules := applicable_rules st;
     suggested_rules := suggested_rules st;
     processed_rule_files := processed_rule_files st;
     visited_dirs := visited_dirs st ++ [d];
     loaded_files := loaded_files st |}.

Definition initial_locals : Locals :=
  {| applicable_rules := [];
     suggested_rules := [];
     processed_rule_files := ∅;
     visited_dirs := [];
     loaded_files := [] |}.

(** [bool(file_path)] for the optional argument *)
Definition supplied (file_path : option string) : bool :=
  match file_path with
  | Some p => PyStr.truthy p
  | None => false
  end.

Section Discovery.

Import PyStr.

Variable env : Env.

(** The loop over [rule.globs]: whether some pattern matched before the
    list ran out, or the exception of the first call that raised *)
Fixpoint any_glob_matches (file_path : string) (globs : list string)
  : outcome bool :=
  match globs with
  | [] => Ok false
  | glob_pattern :: rest =>
      match match_file_with_glob env file_path glob_pattern with
      | Ok true => Ok true
      | Ok false => any_glob_matches file_path rest
      | Raise e => Raise e
      | OutOfFuel => OutOfFuel
      end
  end.

(** The [if]/[elif] chain that classifies a loaded rule *)
Definition classify (file_path : option string) (rule_file_path : string)
    (rule : Rule) : M unit :=
  if always_apply rule then modify (append_applicable rule)
  else if supplied file_path && bool_decide (globs rule <> []) then
    matched ← lift (any_glob_matches (default EmptyString file_path)
                      (globs rule));
    if matched : bool then modify (append_applicable rule) else mret tt
  else
    match description rule with
    | Some d =>
        if truthy d then modify (append_suggested d rule_file_path)
        else mret tt
    | None => mret tt
    end.

(** The body of the loop over [files] *)
Definition process_file (file_path : option string) (root filename : string)
  : M unit :=
  if endswith filename ".mdc" then
    let rule_file_path := PosixPath.join root [filename] in
    fun st =>
      if bool_decide (rule_file_path ∈ processed_rule_files st)
      then (Ok tt, st)
      else
        let st := mark_processed rule_file_path st in
        match load_rule_from_file env rule_file_path with
        | None => (Ok tt, st)
        | Some rule => classify file_path rule_file_path rule st
        end
  else mret tt.

(** What the loop does at one directory of the walk *)
Definition scan_dir (file_path : option string) (current_dir : string)
  : M unit :=
  let rules_dir := PosixPath.join current_dir [".cursor"; "rules"] in
  if isdir env rules_dir then
    for_each (walk env rules_dir)
      (fun '(root, files) => for_each files (process_file file_path root))
  else mret tt.

(** The [while] loop, on a budget of iterations *)
Fixpoint walk_up (fuel : nat) (repo_root : string)
    (file_path : option string) (current_dir : string) : M unit :=
  match fuel with
  | O => lift OutOfFuel
  | S fuel' =>
      if startswith current_dir repo_root then
        modify (enter_dir current_dir) ;;
        scan_dir file_path current_dir ;;
        let parent_dir := PosixPath.dirname current_dir in
        if String.eqb parent_dir current_dir then mret tt
        else walk_up fuel' repo_root file_path parent_dir
      else mret tt
  end.

(** The call up to its [return], with the final locals *)
Definition find_applicable_rules_run (repo_root : string)
    (file_path : option string) : outcome unit * Locals :=
  let repo_root := PosixPath.abspath (getcwd env) repo_root in
  let start_dir :=
    if supplied file_path
    then PosixPath.dirname
           (PosixPath.abspath (getcwd env) (default EmptyString file_path))
    else repo_root in
  walk_up (S (String.length start_dir)) repo_root file_path start_dir
    initial_locals.

Definition find_applicable_rules (repo_root : string)
    (file_path : option string)
  : outcome (list Rule * list (string * string)) :=
  match find_applicable_rules_run repo_root file_path with
  | (Ok _, st) => Ok (applicable_rules st, suggested_rules st)
  | (Raise e, _) => Raise e
  | (OutOfFuel, _) => OutOfFuel
  end.

(** ** [get_applicable_rules_content] *)

(** The loop over [applicable_rules] *)
Fixpoint render_applicable (repo_root : string) (rules : list Rule)
    (result : string) : outcome string :=
  match rules with
  | [] => Ok result
  | rule :: rest =>
      match PosixPath.relpath (getcwd env) (file_path rule) repo_root with
      | Ok rel =>
          render_applicable repo_root rest
            (result +:+ nl +:+ nl +:+ "// Rule from " +:+ rel +:+ ":" +:+ nl
               +:+ payload rule)
      | Raise e => Raise e
      | OutOfFuel => OutOfFuel
      end
  end.

(** The loop over [suggested_rules] *)
Fixpoint render_suggested (repo_root : string)
    (suggested : list (string * string)) (result : string)
  : outcome string :=
  match suggested with
  | [] => Ok result
  | (description, rule_path) :: rest =>
      match PosixPath.relpath (getcwd env) rule_path repo_root with
      | Ok rel_path =>
          render_suggested repo_root rest
            (result +:+ nl +:+ nl +:+ "// If " +:+ description
               +:+ " applies, load " +:+ rel_path)
      | Raise e => Raise e
      | OutOfFuel => OutOfFuel
      end
  end.

(** The body of the [try] block *)
Definition get_applicable_rules_content_try (repo_root : string)
    (file_path : option string) : outcome string :=
  match find_applicable_rules repo_root file_path with
  | Ok (applicable, suggested) =>
      if bool_decide (applicable <> []) || bool_decide (suggested <> [])
      then
        match render_applicable repo_root applicable
                (nl +:+ nl +:+ "// .cursor/rules results:") with
        | Ok result => render_suggested repo_root suggested result
        | Raise e => Raise e
        | OutOfFuel => OutOfFuel
        end
      else Ok EmptyString
  | Raise e => Raise e
  | OutOfFuel => OutOfFuel
  end.

(** [try: ... except Exception: return ""] *)
Definition get_applicable_rules_content (repo_root : string)
    (file_path : option string) : outcome string :=
  match get_applicable_rules_content_try repo_root file_path with
  | Ok result => Ok result
  | Raise _ => Ok EmptyString
  | OutOfFuel => OutOfFuel
  end.

End Discovery.

(** ** The test harness, [src/codemcp/testing.py] *)

Module Testing.

#[local] Unset Elimination Schemes.

(** An exception: an [ExceptionGroup] with its members, or any other *)
Inductive pyexc : Type :=
| PlainException (name : string)
| ExceptionGroup (message : string) (exceptions : list pyexc).

(** The [while] loop of [_unwrap_exception_groups] *)
Fixpoint unwrap_single (exc : pyexc) : pyexc :=
  match exc with
  | ExceptionGroup _ [inner] => unwrap_single inner
  | _ => exc
  end.

(** [_unwrap_exception_groups]: the exception that leaves the context
    manager when its body raises [raised] *)
Definition _unwrap_exception_groups (raised : pyexc) : pyexc :=
  match raised with
  | ExceptionGroup _ exceptions =>
      if Nat.eqb (length exceptions) 1 then
        match exceptions with
        | exc :: _ => unwrap_single exc
        | [] => raised
        end
      else raised
  | PlainException _ => raised
  end.

(** The values the helpers tell apart: a string, a list, an object with
    a [text] attribute, an object with a [content] attribute, any other
    object *)
Inductive pyval : Type :=
| VStr (s : string)
| VList (items : list pyval)
| VTextContent (text : string)
| VCallToolResult (content : pyval) (isError : bool)
| VObject (id : string).

#[local] Set Elimination Schemes.

(** The scan behind [s.replace(old, new)] for a non-empty [old] *)
Fixpoint replace_from (old new : string) (skip : nat) (s : string) : string :=
  match s with
  | EmptyString => EmptyString
  | String c s' =>
      match skip with
      | S k => replace_from old new k s'
      | O =>
          if String.prefix old s
          then new +:+ replace_from old new (String.length old - 1) s'
          else String c (replace_from old new 0 s')
      end
  end.

(** [s.replace(old, new)] *)
Definition replace (s old new : string) : string := replace_from old new 0 s.

(** [hasattr(text[0], "text")] for a non-empty list *)
Definition first_has_text (items : list pyval) : bool :=
  match items with
  | VTextContent _ :: _ => true
  | _ => false
  end.

(** [normalize_path]; [temp_dir] is [self.temp_dir.name] when
    [self.temp_dir] is set *)
Definition normalize_path (temp_dir : option string) (text : pyval) : pyval :=
  match temp_dir with
  | Some name =>
      if PyStr.truthy name then
        let text :=
          match text with
          | VCallToolResult content _ => content
          | _ => text
          end in
        match text with
        | VList items =>
            if Nat.ltb 0 (length items) && first_has_text items then text
            else text
        | VStr s => VStr (replace s name "/tmp/test_dir")
        | _ => text
        end
      else text
  | None => text
  end.

(** [isinstance(exc, ExceptionGroup) and len(exc.exceptions) == 1] *)
Definition is_single_group (exc : pyexc) : bool :=
  match exc with
  | ExceptionGroup _ [_] => true
  | _ => false
  end.

End Testing.

(** ** Vocabulary of the statements *)

(** The document paths that a call has put in either result list *)
Definition result_paths (st : Locals) : list string :=
  (file_path <$> applicable_rules st) ++ (suggested_rules st).*2.

(** [bool(rule.description)]: the test the module itself uses for a rule
    that has a description; a header line [description:] with nothing
    after the colon gives the empty string, which this test rejects. *)
Definition has_description (rule : Rule) : bool :=
  match description rule with
  | Some d => PyStr.truthy d
  | None => false
  end.

(** A file name: a path component other than the one for the directory
    itself *)
Definition is_file_name (n : string) : Prop :=
  PyStr.contains "/" n = false /\ n <> "" /\ n <> ".".

(** The line that closes the header, with the line break before it *)
Definition delimiter : string := nl +:+ "---" +:+ nl.

(** Where the chain of tests sends a loaded rule *)
Inductive verdict : Type :=
| Applicable
| Suggested (d : string)
| Dropped.

Definition verdict_of (env : Env) (target : option string) (r : Rule)
  : verdict :=
  if always_apply r then Applicable
  else if supplied target && bool_decide (globs r <> []) then
    match any_glob_matches env (default EmptyString target) (globs r) with
    | Ok true => Applicable
    | _ => Dropped
    end
  else
    match description r with
    | Some d => if PyStr.truthy d then Suggested d else Dropped
    | None => Dropped
    end.

Definition apply_verdict (v : verdict) (r : Rule) (p : string)
    (st : Locals) : Locals :=
  match v with
  | Applicable => append_applicable r st
  | Suggested d => append_suggested d p st
  | Dropped => st
  end.

(** What the two result lists of a call hold, in terms of the documents
    the call has loaded *)
Record classified (env : Env) (target : option string) (st : Locals)
  : Prop := {
  cl_app_sound :
    forall r, r ∈ applicable_rules st ->
      file_path r ∈ loaded_files st /\
      load_rule_from_file env (file_path r) = Some r /\
      verdict_of env target r = Applicable;
  cl_app_complete :
    forall p r, p ∈ loaded_files st -> load_rule_from_file env p = Some r ->
      verdict_of env target r = Applicable -> r ∈ applicable_rules st;
  cl_sug_sound :
    forall d p, (d, p) ∈ suggested_rules st ->
      p ∈ loaded_files st /\
      exists r, load_rule_from_file env p = Some r /\
                verdict_of env target r = Suggested d;
  cl_sug_complete :
    forall p r d, p ∈ loaded_files st -> load_rule_from_file env p = Some r ->
      verdict_of env target r = Suggested d -> (d, p) ∈ suggested_rules st;
  cl_mdc :
    forall p, p ∈ loaded_files st -> PyStr.endswith p ".mdc" = true;
  cl_app_order :
    (file_path <$> applicable_rules st) `sublist_of` loaded_files st;
  cl_sug_order :
    (suggested_rules st).*2 `sublist_of` loaded_files st
}.

(** The directory the walk starts from, and the resolved root *)
Definition resolved_root (env : Env) (repo_root : string) : string :=
  PosixPath.abspath (getcwd env) repo_root.

Definition start_dir (env : Env) (repo_root : string)
    (target : option string) : string :=
  if supplied target
  then PosixPath.dirname
         (PosixPath.abspath (getcwd env) (default EmptyString target))
  else resolved_root env repo_root.


(** The pieces of the rendered text.  [rel] is the path of a document
    as [os.path.relpath] gives it against the root argument. *)
Definition rel (env : Env) (repo_root p : string) : string :=
  match PosixPath.relpath (getcwd env) p repo_root with
  | Ok s => s
  | _ => EmptyString
  end.

Definition results_header : string := nl +:+ nl +:+ "// .cursor/rules results:".

Definition rule_block (env : Env) (repo_root : string) (r : Rule) : string :=
  nl +:+ nl +:+ "// Rule from " +:+ rel env repo_root (file_path r) +:+ ":"
  +:+ nl +:+ payload r.

Definition suggestion_line (env : Env) (repo_root : string)
    (s : string * string) : string :=
  nl +:+ nl +:+ "// If " +:+ s.1 +:+ " applies, load "
  +:+ rel env repo_root s.2.

Definition concat_all (l : list string) : string :=
  fold_right String.append EmptyString l.

(** The loop over the patterns of the rule loaded from [p] raises [e]. *)
Definition pattern_loop_raises (env : Env) (target : option string)
    (p : string) (e : exn) : Prop :=
  exists r t,
    load_rule_from_file env p = Some r /\ always_apply r = false /\
    target = Some t /\ PyStr.truthy t = true /\
    any_glob_matches env t (globs r) = Raise e.

(** No document loaded so far made the loop over its patterns raise. *)
Definition no_pattern_raised (env : Env) (target : option string)
    (st : Locals) : Prop :=
  forall p e, p ∈ loaded_files st -> ~ pattern_loop_raises env target p e.

(** A computation raises only what a loop over patterns raised. *)
Definition raises_from_patterns (env : Env) (target : option string)
    (m : M unit) : Prop :=
  forall st, no_pattern_raised env target st ->
    match m st with
    | (Ok _, st') => no_pattern_raised env target st'
    | (Raise e, st') =>
        exists p, p ∈ loaded_files st' /\ pattern_loop_raises env target p e
    | (OutOfFuel, _) => True
    end.

(** A computation leaves a property of the locals standing, whether it
    returns or raises. *)
Definition preserves (P : Locals -> Prop) (m : M unit) : Prop :=
  forall st, P st -> P (m st).2.

(** A computation does not exhaust the iteration budget. *)
Definition within_budget {A} (m : M A) : Prop :=
  forall st, (m st).1 <> OutOfFuel.

(** A computation returns, from every state. *)
Definition returns_normally (m : M unit) : Prop :=
  forall st, exists st', m st = (Ok tt, st').

(** What holds of the locals throughout a call with target [target] *)
Record walk_inv (env : Env) (target : option string) (st : Locals) : Prop := {
  inv_loaded_nodup : NoDup (loaded_files st);
  inv_loaded_processed :
    forall p, p ∈ loaded_files st -> p ∈ processed_rule_files st;
  inv_results_loaded :
    forall p, p ∈ result_paths st -> p ∈ loaded_files st;
  inv_results_nodup : NoDup (result_paths st);
  inv_always :
    forall p r, p ∈ loaded_files st -> load_rule_from_file env p = Some r ->
      always_apply r = true -> r ∈ applicable_rules st;
  inv_untargeted :
    supplied target = false ->
    forall p r, p ∈ loaded_files st -> load_rule_from_file env p = Some r ->
      always_apply r = false ->
      (p ∉ file_path <$> applicable_rules st) /\
      match description r with
      | Some d =>
          if PyStr.truthy d then (d, p) ∈ suggested_rules st
          else p ∉ (suggested_rules st).*2
      | None => p ∉ (suggested_rules st).*2
      end
}.

(** [dir] is [root] or lies below it, component by component *)
Definition parts (p : string) : list string :=
  List.filter PyStr.truthy (PyStr.split p "/").

Definition inside (root dir : string) : bool :=
  bool_decide (parts root `prefix_of` parts dir).

(** ** Scenarios *)

(** The text of a rule document: header lines between two delimiter
    lines, then the body *)
Definition mdc (header : list string) (body : string) : string :=
  PyStr.join nl (["---"] ++ header ++ ["---"; body]).

(** A file system in which one directory is a rules folder that holds
    one document.  No scenario below reaches [fnmatch], which is given
    its behaviour on patterns without wildcards. *)
Definition one_rule_env (cwd rules_dir filename content : string) : Env :=
  {| getcwd := cwd;
     isdir := fun d => String.eqb d rules_dir;
     walk := fun d =>
       if String.eqb d rules_dir then [(rules_dir, [filename])] else [];
     read_text := fun p =>
       if String.eqb p (PosixPath.join rules_dir [filename])
       then Some content else None;
     fnmatch := String.eqb |}.

(** The repository [/r] with one rule for JavaScript files *)
Definition js_rule_doc : string :=
  mdc ["description: d"; "globs: *.js"; "alwaysApply: false"] "BODY".

Definition js_rule_repo : Env :=
  one_rule_env "/r" "/r/.cursor/rules" "x.mdc" js_rule_doc.

Definition js_rule : Rule :=
  {| description := Some "d";
     globs := ["*.js"];
     always_apply := false;
     payload := "BODY";
     file_path := "/r/.cursor/rules/x.mdc" |}.

(** A directory [/r2] next to the repository [/r], with a rule of its own *)
Definition sibling_doc : string := mdc ["alwaysApply: true"] "NOT OURS".

Definition sibling_env : Env :=
  one_rule_env "/r" "/r2/.cursor/rules" "leak.mdc" sibling_doc.

Definition sibling_rule : Rule :=
  {| description := None;
     globs := [];
     always_apply := true;
     payload := "NOT OURS";
     file_path := "/r2/.cursor/rules/leak.mdc" |}.

(** The repository [/r] whose rules folder is listed twice by the walk *)
Definition twice_listed_env : Env :=
  {| getcwd := "/r";
     isdir := fun d => String.eqb d "/r/.cursor/rules";
     walk := fun d =>
       if String.eqb d "/r/.cursor/rules"
       then [("/r/.cursor/rules", ["x.mdc"; "x.mdc"]);
             ("/r/.cursor/rules", ["x.mdc"])]
       else [];
     read_text := fun p =>
       if String.eqb p "/r/.cursor/rules/x.mdc"
       then Some js_rule_doc else None;
     fnmatch := String.eqb |}.

(** The repository [/r] with one rule that always applies *)
Definition always_doc : string :=
  mdc ["description: house style"; "alwaysApply: True"] "Be brief.".

Definition always_repo : Env :=
  one_rule_env "/r" "/r/.cursor/rules" "style.mdc" always_doc.

Definition always_rule : Rule :=
  {| description := Some "house style";
     globs := [];
     always_apply := true;
     payload := "Be brief.";
     file_path := "/r/.cursor/rules/style.mdc" |}.

(** The repository [/r] with one rule whose pattern names every Python
    file in the tree *)
Definition py_tree_doc : string :=
  mdc ["description: python"; "globs: **/*.py"; "alwaysApply: false"] "PEP 8".

Definition py_tree_repo : Env :=
  one_rule_env "/r" "/r/.cursor/rules" "py.mdc" py_tree_doc.

(** The repository of the round trip *)
Definition roundtrip_doc : string :=
  mdc ["description: foo"; "globs: *.py, *.md"; "alwaysApply: false"] "Hello".

Definition roundtrip_repo : Env :=
  one_rule_env "/r" "/r/.cursor/rules" "x.mdc" roundtrip_doc.

Definition roundtrip_rule : Rule :=
  {| description := Some "foo";
     globs := ["*.py"; "*.md"];
     always_apply := false;
     payload := "Hello";
     file_path := "/r/.cursor/rules/x.mdc" |}.

Definition roundtrip_output : string :=
  nl +:+ nl +:+ "// .cursor/rules results:" +:+ nl +:+ nl
  +:+ "// Rule from .cursor/rules/x.mdc:" +:+ nl +:+ "Hello".

(** A file system without any rules folder *)
Definition empty_env : Env :=
  {| getcwd := "/r";
     isdir := fun _ => false;
     walk := fun _ => [];
     read_text := fun _ => None;
     fnmatch := String.eqb |}.

(** The repository [/r] with one rule whose header names a brace pattern *)
Definition brace_doc : string :=
  mdc ["description: scripts"; "globs: *.{js,ts}"] "Use strict mode.".

Definition brace_repo : Env :=
  one_rule_env "/r" "/r/.cursor/rules" "scripts.mdc" brace_doc.

(** * Properties *)

(** ** The embedding on concrete inputs *)

Example split_boundary :
  PyStr.split "src/**/index.js" "/**/" = ["src"; "index.js"].
Proof. reflexivity. Qed.

Example split_twice : PyStr.split "a/**/**/b" "/**/" = ["a"; "**/b"].
Proof. reflexivity. Qed.

Example split_trailing : PyStr.split "a," "," = ["a"; ""].
Proof. reflexivity. Qed.

Example split1_first_colon :
  PyStr.split1 "globs: a:b" ":" = ["globs"; " a:b"].
Proof. reflexivity. Qed.

Example strip_both : PyStr.strip (nl +:+ "  a b " +:+ nl) = "a b".
Proof. reflexivity. Qed.

Example lower_true : PyStr.lower "TrUe" = "true".
Proof. reflexivity. Qed.

Example normpath_dots : PosixPath.normpath "/a/./b/../c//d/" = "/a/c/d".
Proof. reflexivity. Qed.

Example normpath_two_slashes : PosixPath.normpath "//a/../../b" = "//b".
Proof. reflexivity. Qed.

Example normpath_relative : PosixPath.normpath "a/../../b" = "../b".
Proof. reflexivity. Qed.

Example abspath_relative : PosixPath.abspath "/r" "src/../a.py" = "/r/a.py".
Proof. reflexivity. Qed.

Example dirname_chain :
  PosixPath.dirname "/r/src" = "/r" /\ PosixPath.dirname "/r" = "/" /\
  PosixPath.dirname "/" = "/" /\ PosixPath.dirname "a//b" = "a" /\
  PosixPath.dirname "a" = "".
Proof. repeat split; reflexivity. Qed.

Example join_components :
  PosixPath.join "/r" [".cursor"; "rules"] = "/r/.cursor/rules" /\
  PosixPath.join "/r/" ["/abs"; "x"] = "/abs/x".
Proof. split; reflexivity. Qed.

Example relpath_below :
  PosixPath.relpath "/" "/r/.cursor/rules/x.mdc" "/r"
  = Ok ".cursor/rules/x.mdc".
Proof. reflexivity. Qed.

Example relpath_outside : PosixPath.relpath "/" "/x/y" "/r/s" = Ok "../../x/y".
Proof. reflexivity. Qed.

Example relpath_empty : PosixPath.relpath "/" "" "/r" = Raise ValueError.
Proof. reflexivity. Qed.

Example path_name_and_str :
  PathLib.name (PathLib.Path "a//b/./c/") = "c" /\
  PathLib.str (PathLib.Path "a//b/./c/") = "a/b/c" /\
  PathLib.str (PathLib.Path "//a") = "//a" /\
  PathLib.str (PathLib.Path "///a") = "/a" /\
  PathLib.str (PathLib.Path "") = "." /\
  PathLib.name (PathLib.Path "/") = "".
Proof. repeat split; reflexivity. Qed.

Example load_js_rule :
  load_rule_from_file js_rule_repo "/r/.cursor/rules/x.mdc" = Some js_rule.
Proof. vm_compute. reflexivity. Qed.

Example load_without_header :
  load_rule_from_file
    (one_rule_env "/r" "/r/.cursor/rules" "x.mdc" "just text")
    "/r/.cursor/rules/x.mdc" = None.
Proof. vm_compute. reflexivity. Qed.

Example load_missing_file :
  load_rule_from_file js_rule_repo "/r/.cursor/rules/nope.mdc" = None.
Proof. vm_compute. reflexivity. Qed.

Example discover_matching_target :
  find_applicable_rules js_rule_repo "/r" (Some "/r/src/app.js")
  = Ok ([js_rule], []).
Proof. vm_compute. reflexivity. Qed.

Example discover_without_target :
  find_applicable_rules js_rule_repo "/r" None
  = Ok ([], [("d", "/r/.cursor/rules/x.mdc")]).
Proof. vm_compute. reflexivity. Qed.

Example render_suggestion :
  get_applicable_rules_content js_rule_repo "/r" None
  = Ok (nl +:+ nl +:+ "// .cursor/rules results:" +:+ nl +:+ nl
        +:+ "// If d applies, load .cursor/rules/x.mdc").
Proof. vm_compute. reflexivity. Qed.

Example walk_inside_root :
  visited_dirs
    (find_applicable_rules_run js_rule_repo "/r" (Some "/r/a/b/c.py")).2
  = ["/r/a/b"; "/r/a"; "/r"].
Proof. vm_compute. reflexivity. Qed.

(** ** Strings and paths *)

Lemma prefix_length (a b : string) :
  String.prefix a b = true -> String.length a <= String.length b.
Proof.
  revert a; induction b as [|c b IH]; intros [|d a]; simpl; try lia.
  destruct (ascii_dec d c); [|discriminate].
  intros H; apply IH in H; lia.
Qed.

Lemma prefix_full (a b : string) :
  String.prefix a b = true -> String.length a = String.length b -> a = b.
Proof.
  revert a; induction b as [|c b IH]; intros [|d a]; simpl; try discriminate.
  - reflexivity.
  - destruct (ascii_dec d c) as [->|]; [|discriminate].
    intros H L; f_equal; apply IH; [assumption|lia].
Qed.

Lemma prefix_nil (s : string) : String.prefix EmptyString s = true.
Proof. destruct s; reflexivity. Qed.

Lemma prefix_refl (a : string) : String.prefix a a = true.
Proof.
  induction a as [|c a IH]; simpl; [reflexivity|].
  destruct (ascii_dec c c); [assumption|contradiction].
Qed.

Lemma prefix_trans (a b c : string) :
  String.prefix a b = true -> String.prefix b c = true ->
  String.prefix a c = true.
Proof.
  revert a b; induction c as [|x c IH]; intros [|y a] [|z b]; simpl;
    try reflexivity; try discriminate.
  destruct (ascii_dec y z) as [->|]; [|discriminate].
  destruct (ascii_dec z x); [|discriminate].
  apply IH.
Qed.

Lemma is_sep_eq (c : ascii) : PosixPath.is_sep c = true -> c = "/"%char.
Proof. apply Ascii.eqb_eq. Qed.

Lemma upto_last_sep_prefix (p : string) :
  String.prefix (PosixPath.upto_last_sep p) p = true.
Proof.
  induction p as [|c p IH]; simpl; [reflexivity|].
  destruct (PyStr.contains "/" p).
  - simpl. destruct (ascii_dec c c); [assumption|contradiction].
  - destruct (PosixPath.is_sep c) eqn:E; [|reflexivity].
    apply is_sep_eq in E; subst c; simpl; apply prefix_nil.
Qed.

Lemma rstrip_sep_prefix (s : string) :
  String.prefix (PosixPath.rstrip_sep s) s = true.
Proof.
  induction s as [|c s IH]; simpl; [reflexivity|].
  destruct (PosixPath.rstrip_sep s) as [|d r].
  - destruct (PosixPath.is_sep c); simpl; [reflexivity|].
    destruct (ascii_dec c c); [|contradiction].
    destruct s; reflexivity.
  - simpl. destruct (ascii_dec c c); [assumption|contradiction].
Qed.

Lemma dirname_prefix (p : string) :
  String.prefix (PosixPath.dirname p) p = true.
Proof.
  unfold PosixPath.dirname.
  destruct (_ && _).
  - eapply prefix_trans; [apply rstrip_sep_prefix|apply upto_last_sep_prefix].
  - apply upto_last_sep_prefix.
Qed.

(** Each ascent of the walk shortens the directory string, unless it has
    reached a fixed point of [dirname]. *)
Lemma dirname_shorter (p : string) :
  PosixPath.dirname p <> p ->
  String.length (PosixPath.dirname p) < String.length p.
Proof.
  intros Hne.
  pose proof (prefix_length _ _ (dirname_prefix p)) as Hle.
  destruct (Nat.eq_dec (String.length (PosixPath.dirname p)) (String.length p))
    as [E|E]; [|lia].
  exfalso; apply Hne, prefix_full; [apply dirname_prefix|exact E].
Qed.

(** ** The state-and-exception monad *)

Lemma bind_run {A B} (m : M A) (k : A -> M B) (st : Locals) :
  (m ≫= k) st =
  match m st with
  | (Ok a, st') => k a st'
  | (Raise e, st') => (Raise e, st')
  | (OutOfFuel, st') => (OutOfFuel, st')
  end.
Proof. reflexivity. Qed.

Lemma preserves_ret (P : Locals -> Prop) : preserves P (mret tt).
Proof. intros st H; exact H. Qed.

Lemma preserves_bind (P : Locals -> Prop) (m : M unit) (k : unit -> M unit) :
  preserves P m -> (forall a, preserves P (k a)) -> preserves P (m ≫= k).
Proof.
  intros Hm Hk st H. rewrite bind_run.
  specialize (Hm st H). destruct (m st) as [[a|e|] st']; simpl in *; auto.
  apply Hk; assumption.
Qed.

Lemma preserves_for_each {X} (P : Locals -> Prop) (xs : list X)
    (body : X -> M unit) :
  (forall x, preserves P (body x)) -> preserves P (for_each xs body).
Proof.
  intros Hb; induction xs as [|x xs IH]; simpl.
  - apply preserves_ret.
  - apply preserves_bind; [apply Hb|intros _; exact IH].
Qed.

Lemma within_budget_bind {A B} (m : M A) (k : A -> M B) :
  within_budget m -> (forall a, within_budget (k a)) ->
  within_budget (m ≫= k).
Proof.
  intros Hm Hk st. rewrite bind_run.
  specialize (Hm st). destruct (m st) as [[a|e|] st']; simpl in *;
    [apply Hk|discriminate|contradiction].
Qed.

Lemma within_budget_ret {A} (a : A) : within_budget (mret a).
Proof. intros st; discriminate. Qed.

Lemma within_budget_modify (f : Locals -> Locals) : within_budget (modify f).
Proof. intros st; discriminate. Qed.

Lemma within_budget_for_each {X} (xs : list X) (body : X -> M unit) :
  (forall x, within_budget (body x)) -> within_budget (for_each xs body).
Proof.
  intros Hb; induction xs as [|x xs IH]; simpl.
  - apply within_budget_ret.
  - apply within_budget_bind; [apply Hb|intros _; exact IH].
Qed.

Lemma walk_up_step (env : Env) (fuel : nat) (repo_root : string)
    (target : option string) (d : string) :
  walk_up env (S fuel) repo_root target d =
  if PyStr.startswith d repo_root then
    modify (enter_dir d) ;; scan_dir env target d ;;
    let parent_dir := PosixPath.dirname d in
    if String.eqb parent_dir d then mret tt
    else walk_up env fuel repo_root target parent_dir
  else mret tt.
Proof. reflexivity. Qed.

(** ** The walk terminates *)

Section Termination.

Variable env : Env.

Lemma match_file_with_glob_budget (f g : string) :
  match_file_with_glob env f g <> OutOfFuel.
Proof.
  unfold match_file_with_glob. repeat case_match; discriminate.
Qed.

Lemma any_glob_matches_budget (f : string) (gs : list string) :
  any_glob_matches env f gs <> OutOfFuel.
Proof.
  induction gs as [|g gs IH]; simpl; [discriminate|].
  pose proof (match_file_with_glob_budget f g).
  destruct (match_file_with_glob env f g) as [[|]| |];
    try discriminate; try assumption; contradiction.
Qed.

Lemma classify_budget (target : option string) (p : string) (r : Rule) :
  within_budget (classify env target p r).
Proof.
  unfold classify.
  destruct (always_apply r); [apply within_budget_modify|].
  destruct (_ && _).
  - apply within_budget_bind.
    + intros st; apply any_glob_matches_budget.
    + intros [|]; [apply within_budget_modify|apply within_budget_ret].
  - destruct (description r) as [d|]; [|apply within_budget_ret].
    destruct (PyStr.truthy d);
      [apply within_budget_modify|apply within_budget_ret].
Qed.

Lemma process_file_budget (target : option string) (root filename : string) :
  within_budget (process_file env target root filename).
Proof.
  unfold process_file.
  destruct (PyStr.endswith filename ".mdc"); [|apply within_budget_ret].
  intros st. case_bool_decide; [discriminate|].
  destruct (load_rule_from_file env _); [apply classify_budget|discriminate].
Qed.

Lemma scan_dir_budget (target : option string) (d : string) :
  within_budget (scan_dir env target d).
Proof.
  unfold scan_dir. destruct (isdir env _); [|apply within_budget_ret].
  apply within_budget_for_each; intros [root files].
  apply within_budget_for_each; intros f. apply process_file_budget.
Qed.

Lemma walk_up_budget (fuel : nat) (repo_root : string)
    (target : option string) (current_dir : string) :
  String.length current_dir < fuel ->
  within_budget (walk_up env fuel repo_root target current_dir).
Proof.
  revert current_dir; induction fuel as [|fuel IH]; intros d Hlt; [lia|].
  simpl. destruct (PyStr.startswith d repo_root); [|apply within_budget_ret].
  apply within_budget_bind; [apply within_budget_modify|intros _].
  apply within_budget_bind; [apply scan_dir_budget|intros _].
  destruct (String.eqb (PosixPath.dirname d) d) eqn:E;
    [apply within_budget_ret|].
  apply IH. apply String.eqb_neq in E.
  pose proof (dirname_shorter d E). lia.
Qed.

(** [find_applicable_rules] returns or raises on every input. *)
Lemma find_applicable_rules_run_budget (repo_root : string)
    (target : option string) :
  (find_applicable_rules_run env repo_root target).1 <> OutOfFuel.
Proof.
  unfold find_applicable_rules_run. apply walk_up_budget. lia.
Qed.

Lemma find_applicable_rules_budget (repo_root : string)
    (target : option string) :
  find_applicable_rules env repo_root target <> OutOfFuel.
Proof.
  unfold find_applicable_rules.
  pose proof (find_applicable_rules_run_budget repo_root target) as H.
  destruct (find_applicable_rules_run env repo_root target) as [[a|e|] st];
    simpl in H; [discriminate|discriminate|contradiction].
Qed.

End Termination.

(** ** One document at a time *)

Section Invariant.

Variable env : Env.

Lemma load_rule_from_file_path (p : string) (r : Rule) :
  load_rule_from_file env p = Some r -> file_path r = p.
Proof.
  unfold load_rule_from_file.
  destruct (read_text env p) as [content|]; [|discriminate].
  destruct (frontmatter_match content) as [[fm body]|]; [|discriminate].
  intros [= <-]; reflexivity.
Qed.

(** What [process_file] can do to the locals: nothing; record the load
    and append nothing; record it and append to one of the two lists. *)
Lemma process_file_cases (target : option string) (root filename : string)
    (st : Locals) :
  let p := PosixPath.join root [filename] in
  let st' := (process_file env target root filename st).2 in
  st' = st \/
  ((p ∉ processed_rule_files st) /\
   ((st' = mark_processed p st /\
     forall r, load_rule_from_file env p = Some r ->
       always_apply r = false /\
       (supplied target = false -> has_description r = false)) \/
    (exists r, load_rule_from_file env p = Some r /\
       st' = append_applicable r (mark_processed p st) /\
       (supplied target = false -> always_apply r = true)) \/
    (exists r d, load_rule_from_file env p = Some r /\
       always_apply r = false /\ description r = Some d /\
       PyStr.truthy d = true /\
       st' = append_suggested d p (mark_processed p st)))).
Proof.
  intros p st'; subst st'; unfold process_file; fold p.
  destruct (PyStr.endswith filename ".mdc"); [|left; reflexivity].
  case_bool_decide as Hin; [left; reflexivity|right; split; [exact Hin|]].
  destruct (load_rule_from_file env p) as [r|] eqn:Hload;
    [|left; split; [reflexivity|intros r [=]]].
  unfold classify, has_description.
  destruct (always_apply r) eqn:Ha.
  { right; left; exists r; auto. }
  destruct (supplied target) eqn:Hs; simpl.
  - case_bool_decide as Hg; simpl.
    + rewrite bind_run; unfold lift.
      destruct (any_glob_matches env _ (globs r)) as [[|]| |]; simpl.
      * right; left; exists r; repeat split; auto; discriminate.
      * left; split; [reflexivity|]. intros r' [= <-]; split; auto; discriminate.
      * left; split; [reflexivity|]. intros r' [= <-]; split; auto; discriminate.
      * left; split; [reflexivity|]. intros r' [= <-]; split; auto; discriminate.
    + destruct (description r) as [d|] eqn:Hd.
      * destruct (PyStr.truthy d) eqn:Ht.
        -- right; right; exists r, d; auto.
        -- left; split; [reflexivity|].
           intros r' [= <-]; split; auto; discriminate.
      * left; split; [reflexivity|].
        intros r' [= <-]; split; auto; discriminate.
  - destruct (description r) as [d|] eqn:Hd.
    + destruct (PyStr.truthy d) eqn:Ht.
      * right; right; exists r, d; auto.
      * left; split; [reflexivity|].
        intros r' [= <-]; split; auto. rewrite Hd; auto.
    + left; split; [reflexivity|].
      intros r' [= <-]; split; auto. rewrite Hd; auto.
Qed.

Lemma result_paths_applicable (r : Rule) (st : Locals) (q : string) :
  q ∈ result_paths (append_applicable r st) <->
  q = file_path r \/ q ∈ result_paths st.
Proof.
  unfold result_paths; simpl. rewrite fmap_app; simpl.
  rewrite !elem_of_app, list_elem_of_singleton. tauto.
Qed.

Lemma result_paths_suggested (d p : string) (st : Locals) (q : string) :
  q ∈ result_paths (append_suggested d p st) <-> q = p \/ q ∈ result_paths st.
Proof.
  unfold result_paths; simpl. rewrite fmap_app; simpl.
  rewrite !elem_of_app, list_elem_of_singleton. tauto.
Qed.

Lemma result_paths_applicable_nodup (r : Rule) (st : Locals) :
  NoDup (result_paths st) -> file_path r ∉ result_paths st ->
  NoDup (result_paths (append_applicable r st)).
Proof.
  unfold result_paths; simpl. rewrite fmap_app; simpl.
  rewrite !NoDup_app. intros (Ha & Hd & Hs) Hn.
  rewrite elem_of_app in Hn.
  repeat split; auto.
  - intros x Hx; rewrite list_elem_of_singleton; intros ->; tauto.
  - apply NoDup_singleton.
  - intros x; rewrite elem_of_app, list_elem_of_singleton.
    intros [Hx| ->]; [apply Hd; exact Hx|tauto].
Qed.

Lemma result_paths_suggested_nodup (d p : string) (st : Locals) :
  NoDup (result_paths st) -> p ∉ result_paths st ->
  NoDup (result_paths (append_suggested d p st)).
Proof.
  unfold result_paths; simpl. rewrite fmap_app; simpl.
  rewrite !NoDup_app. intros (Ha & Hd & Hs) Hn.
  rewrite elem_of_app in Hn.
  repeat split; auto.
  - intros x Hx; rewrite elem_of_app, list_elem_of_singleton.
    intros [Hy| ->]; [exact (Hd x Hx Hy)|tauto].
  - intros x Hx; rewrite list_elem_of_singleton; intros ->; tauto.
  - apply NoDup_singleton.
Qed.

Lemma mark_processed_inv (target : option string) (p : string)
    (st : Locals) :
  walk_inv env target st -> p ∉ processed_rule_files st ->
  (forall r, load_rule_from_file env p = Some r ->
     always_apply r = false /\
     (supplied target = false -> has_description r = false)) ->
  walk_inv env target (mark_processed p st).
Proof.
  intros [I1 I2 I3 I4 I5 I6] Hp Hr.
  assert (Hl : p ∉ loaded_files st) by (intros H; apply Hp, I2, H).
  assert (Hres : p ∉ result_paths st) by (intros H; apply Hl, I3, H).
  constructor; simpl.
  - rewrite NoDup_app; repeat split; auto.
    + intros x Hx; rewrite list_elem_of_singleton; intros ->; tauto.
    + apply NoDup_singleton.
  - intros q; rewrite elem_of_app, list_elem_of_singleton.
    intros [Hq| ->]; apply elem_of_union;
      [right; apply I2, Hq|left; apply elem_of_singleton; reflexivity].
  - intros q Hq. rewrite elem_of_app; left. apply I3; exact Hq.
  - exact I4.
  - intros q r; rewrite elem_of_app, list_elem_of_singleton.
    intros [Hq| ->] Hload Ha; [eapply I5; eauto|].
    destruct (Hr r Hload) as [Hf _]; congruence.
  - intros Hs q r; rewrite elem_of_app, list_elem_of_singleton.
    intros [Hq| ->] Hload Ha; [eapply I6; eauto|].
    destruct (Hr r Hload) as [_ Hd]. specialize (Hd Hs).
    unfold result_paths in Hres; rewrite elem_of_app in Hres.
    split; [tauto|].
    unfold has_description in Hd.
    destruct (description r) as [d|]; [rewrite Hd|]; tauto.
Qed.

Lemma process_file_inv (target : option string) (root filename : string) :
  preserves (walk_inv env target) (process_file env target root filename).
Proof.
  intros st Hinv.
  destruct (process_file_cases target root filename st)
    as [->|[Hp [[-> Hr]|[(r & Hload & -> & Hs)|(r & d & Hload & Ha & Hd & Ht & ->)]]]];
    [exact Hinv|apply mark_processed_inv; assumption|..].
  - set (p := PosixPath.join root [filename]) in *.
    pose proof (load_rule_from_file_path p r Hload) as Hfp.
    assert (Hl : p ∉ loaded_files st)
      by (intros H; apply Hp; destruct Hinv as [_ I2 _ _ _ _]; apply I2, H).
    assert (Hres : p ∉ result_paths st)
      by (intros H; apply Hl; destruct Hinv as [_ _ I3 _ _ _]; apply I3, H).
    destruct Hinv as [I1 I2 I3 I4 I5 I6].
    constructor.
    + simpl. rewrite NoDup_app; repeat split; auto.
      * intros x Hx; rewrite list_elem_of_singleton; intros ->; tauto.
      * apply NoDup_singleton.
    + simpl. intros q; rewrite elem_of_app, list_elem_of_singleton.
      intros [Hq| ->]; apply elem_of_union;
      [right; apply I2, Hq|left; apply elem_of_singleton; reflexivity].
    + intros q; rewrite result_paths_applicable. simpl.
      rewrite elem_of_app, list_elem_of_singleton.
      intros [->|Hq]; [right; exact Hfp|left; apply I3; exact Hq].
    + apply result_paths_applicable_nodup; [exact I4|rewrite Hfp; exact Hres].
    + simpl. intros q r'; rewrite !elem_of_app, !list_elem_of_singleton.
      intros [Hq| ->] Hload' Ha; [left; eapply I5; eauto|right; congruence].
    + simpl. intros Hsup q r'; rewrite elem_of_app, list_elem_of_singleton.
      intros [Hq| ->] Hload' Ha.
      * destruct (I6 Hsup q r' Hq Hload' Ha) as [Hn Hm]. split; [|exact Hm].
        rewrite fmap_app, elem_of_app; simpl.
        rewrite list_elem_of_singleton, Hfp.
        intros [H| ->]; tauto.
      * specialize (Hs Hsup). congruence.
  - set (p := PosixPath.join root [filename]) in *.
    assert (Hl : p ∉ loaded_files st)
      by (intros H; apply Hp; destruct Hinv as [_ I2 _ _ _ _]; apply I2, H).
    assert (Hres : p ∉ result_paths st)
      by (intros H; apply Hl; destruct Hinv as [_ _ I3 _ _ _]; apply I3, H).
    destruct Hinv as [I1 I2 I3 I4 I5 I6].
    constructor.
    + simpl. rewrite NoDup_app; repeat split; auto.
      * intros x Hx; rewrite list_elem_of_singleton; intros ->; tauto.
      * apply NoDup_singleton.
    + simpl. intros q; rewrite elem_of_app, list_elem_of_singleton.
      intros [Hq| ->]; apply elem_of_union;
      [right; apply I2, Hq|left; apply elem_of_singleton; reflexivity].
    + intros q; rewrite result_paths_suggested. simpl.
      rewrite elem_of_app, list_elem_of_singleton.
      intros [->|Hq]; [right; reflexivity|left; apply I3; exact Hq].
    + apply result_paths_suggested_nodup; [exact I4|exact Hres].
    + simpl. intros q r'; rewrite !elem_of_app, !list_elem_of_singleton.
      intros [Hq| ->] Hload' Ha'; [eapply I5; eauto|congruence].
    + simpl. intros Hsup q r'; rewrite elem_of_app, list_elem_of_singleton.
      unfold result_paths in Hres; rewrite elem_of_app in Hres.
      intros [Hq| ->] Hload' Ha'.
      * destruct (I6 Hsup q r' Hq Hload' Ha') as [Hn Hm]. split; [exact Hn|].
        rewrite fmap_app; simpl.
        destruct (description r') as [d'|].
        -- destruct (PyStr.truthy d').
           ++ rewrite elem_of_app; left; exact Hm.
           ++ rewrite elem_of_app, list_elem_of_singleton.
              intros [H| ->]; tauto.
        -- rewrite elem_of_app, list_elem_of_singleton.
           intros [H| ->]; tauto.
      * assert (r' = r) by congruence; subst r'.
        split; [tauto|]. rewrite Hd, Ht.
        rewrite elem_of_app, list_elem_of_singleton; right; reflexivity.
Qed.

Lemma enter_dir_inv (target : option string) (d : string) :
  preserves (walk_inv env target) (modify (enter_dir d)).
Proof. intros st [I1 I2 I3 I4 I5 I6]; constructor; assumption. Qed.

Lemma scan_dir_inv (target : option string) (d : string) :
  preserves (walk_inv env target) (scan_dir env target d).
Proof.
  unfold scan_dir. destruct (isdir env _); [|apply preserves_ret].
  apply preserves_for_each; intros [root files].
  apply preserves_for_each; intros f. apply process_file_inv.
Qed.

Lemma walk_up_inv (fuel : nat) (repo_root : string)
    (target : option string) (current_dir : string) :
  preserves (walk_inv env target)
    (walk_up env fuel repo_root target current_dir).
Proof.
  revert current_dir; induction fuel as [|fuel IH]; intros d; simpl.
  - intros st H; exact H.
  - destruct (PyStr.startswith d repo_root); [|apply preserves_ret].
    apply preserves_bind; [apply enter_dir_inv|intros _].
    apply preserves_bind; [apply scan_dir_inv|intros _].
    destruct (String.eqb _ _); [apply preserves_ret|apply IH].
Qed.

Lemma initial_locals_inv (target : option string) :
  walk_inv env target initial_locals.
Proof.
  constructor; simpl.
  - apply NoDup_nil_2.
  - intros p Hp; apply elem_of_nil in Hp; contradiction.
  - intros p Hp; apply elem_of_nil in Hp; contradiction.
  - apply NoDup_nil_2.
  - intros p r Hp; apply elem_of_nil in Hp; contradiction.
  - intros _ p r Hp; apply elem_of_nil in Hp; contradiction.
Qed.

(** The invariant holds of the locals a call ends with. *)
Lemma find_applicable_rules_run_inv (repo_root : string)
    (target : option string) :
  walk_inv env target (find_applicable_rules_run env repo_root target).2.
Proof.
  unfold find_applicable_rules_run.
  apply walk_up_inv, initial_locals_inv.
Qed.

End Invariant.

(** ** The glob matcher *)

Lemma prefix_split (a s : string) :
  String.prefix a s = true -> exists rest, s = a +:+ rest.
Proof.
  revert s; induction a as [|c a IH]; intros s H.
  - exists s; reflexivity.
  - destruct s as [|d s]; simpl in H; [discriminate|].
    destruct (ascii_dec c d) as [->|]; [|discriminate].
    destruct (IH s H) as [rest ->]. exists rest; reflexivity.
Qed.

Lemma contains_cons (p : string) (c : ascii) (s : string) :
  PyStr.contains p s = true -> PyStr.contains p (String c s) = true.
Proof. intros H; simpl; rewrite H; apply orb_true_r. Qed.

Lemma split_from_contains (sep s : string) (skip : nat) (h : string)
    (t : list string) :
  PyStr.split_from sep skip s = (h, t) -> t <> [] ->
  PyStr.contains sep s = true.
Proof.
  revert skip h t; induction s as [|c s IH]; intros skip h t.
  - simpl; intros [= <- <-] Hn; contradiction.
  - cbn [PyStr.split_from]. destruct skip as [|k].
    + destruct (String.prefix sep (String c s)) eqn:Hp.
      * intros _ _. cbn [PyStr.contains]. rewrite Hp; reflexivity.
      * destruct (PyStr.split_from sep 0 s) as [h' t'] eqn:Hs.
        intros [= <- <-] Hn. apply contains_cons. eapply IH; eauto.
    + intros Hs Hn. apply contains_cons. eapply IH; eauto.
Qed.

(** A pattern that [split] cuts in two holds the separator. *)
Lemma split_two_contains (s sep d f : string) :
  PyStr.split s sep = [d; f] -> PyStr.contains sep s = true.
Proof.
  unfold PyStr.split.
  destruct (PyStr.split_from sep 0 s) as [h t] eqn:Hs.
  intros [= -> ->]. eapply split_from_contains; [exact Hs|discriminate].
Qed.

Lemma contains_boundary (s : string) :
  PyStr.contains "/**/" s = true ->
  PyStr.contains "/" s = true /\ PyStr.contains "**" s = true.
Proof.
  induction s as [|c s IH]; [discriminate|].
  cbn [PyStr.contains]. intros H; apply orb_true_iff in H as [H|H].
  - apply prefix_split in H as [rest Heq]. simpl in Heq.
    injection Heq as -> ->. split; reflexivity.
  - destruct (IH H) as [H1 H2]. rewrite H1, H2, !orb_true_r. auto.
Qed.

(** ** Claims *)

(** The classification drops a rule whose patterns were tried against a
    supplied target and did not match, whatever its description. *)
Lemma classify_unmatched (env : Env) (target p : string) (r : Rule)
    (st : Locals) :
  PyStr.truthy target = true -> always_apply r = false -> globs r <> [] ->
  any_glob_matches env target (globs r) = Ok false ->
  classify env (Some target) p r st = (Ok tt, st).
Proof.
  intros Ht Ha Hg Hm. unfold classify. rewrite Ha. simpl. rewrite Ht.
  rewrite bool_decide_eq_true_2 by exact Hg. simpl.
  rewrite bind_run. unfold lift. rewrite Hm. reflexivity.
Qed.

(** C1. In the repository [/r] whose one rule has description [d],
    pattern [*.js] and [alwaysApply: false], discovery for the target
    [/r/src/app.py] loads the rule, finds that its pattern does not match,
    and returns two empty lists: the described rule is in neither. *)
Theorem unmatched_described_rule_vanishes :
  load_rule_from_file js_rule_repo "/r/.cursor/rules/x.mdc" = Some js_rule /\
  any_glob_matches js_rule_repo "/r/src/app.py" (globs js_rule) = Ok false /\
  loaded_files
    (find_applicable_rules_run js_rule_repo "/r" (Some "/r/src/app.py")).2
  = ["/r/.cursor/rules/x.mdc"] /\
  find_applicable_rules js_rule_repo "/r" (Some "/r/src/app.py")
  = Ok ([], []).
Proof. vm_compute. auto. Qed.

(** C2. A pattern with a separator and a double star that does not split
    at the boundary into exactly two parts makes the matcher raise
    [ValueError], for every file path. *)
Theorem match_file_with_glob_unpack_raises (env : Env) (file_path : string) :
  match_file_with_glob env file_path "**/test_*.py" = Raise ValueError /\
  match_file_with_glob env file_path "docs/**/api/**/*.md" = Raise ValueError.
Proof. split; reflexivity. Qed.

(** The two extensions the second case of the matcher names are compared
    against the base name. *)
Lemma match_double_star_js (env : Env) (file_path : string) :
  match_file_with_glob env file_path "**/*.js"
  = Ok (PyStr.endswith (PathLib.name (PathLib.Path file_path)) ".js") /\
  match_file_with_glob env file_path "**/*.jsx"
  = Ok (PyStr.endswith (PathLib.name (PathLib.Path file_path)) ".jsx").
Proof. split; reflexivity. Qed.

(** C3. For the extension [py] the double-star-prefixed form is not
    compared against the base name: the base name of [src/app.py] ends
    with [.py], and the matcher raises [ValueError]. *)
Theorem match_double_star_py_raises (env : Env) :
  PyStr.endswith (PathLib.name (PathLib.Path "src/app.py")) ("." +:+ "py")
  = true /\
  match_file_with_glob env "src/app.py" ("**/*." +:+ "py") = Raise ValueError.
Proof. split; reflexivity. Qed.

(** C4. With repository root [/r] and target [/r2/a.py] the walk stops at
    [/r2], which is not [/r] or below it but whose name begins with the
    same characters, and the rule kept there is returned as applicable. *)
Theorem walk_visits_sibling_directory :
  inside "/r" "/r2" = false /\
  PyStr.startswith "/r2" "/r" = true /\
  visited_dirs (find_applicable_rules_run sibling_env "/r" (Some "/r2/a.py")).2
  = ["/r2"] /\
  find_applicable_rules sibling_env "/r" (Some "/r2/a.py")
  = Ok ([sibling_rule], []).
Proof. vm_compute. auto. Qed.

(** Every directory the walk stops at has the resolved root as a prefix
    of its name; this is the test the loop makes. *)
Lemma walk_up_visits_prefixed (env : Env) (fuel : nat) (repo_root : string)
    (target : option string) (current_dir : string) :
  preserves
    (fun st => forall d, d ∈ visited_dirs st ->
               PyStr.startswith d repo_root = true)
    (walk_up env fuel repo_root target current_dir).
Proof.
  revert current_dir; induction fuel as [|fuel IH]; intros d; simpl.
  - intros st H; exact H.
  - destruct (PyStr.startswith d repo_root) eqn:Hd; [|apply preserves_ret].
    apply preserves_bind; [|intros _; apply preserves_bind].
    + intros st H x; simpl. rewrite elem_of_app, list_elem_of_singleton.
      intros [Hx| ->]; [apply H, Hx|exact Hd].
    + unfold scan_dir. destruct (isdir env _); [|apply preserves_ret].
      apply preserves_for_each; intros [root files].
      apply preserves_for_each; intros f st H.
      destruct (process_file_cases env target root f st)
        as [->|[_ [[-> _]|[(r & _ & -> & _)|(r & x & _ & _ & _ & _ & ->)]]]];
        exact H.
    + intros _. destruct (String.eqb _ _); [apply preserves_ret|apply IH].
Qed.

Lemma find_applicable_rules_ok (env : Env) (repo_root : string)
    (target : option string) (app : list Rule) (sug : list (string * string)) :
  find_applicable_rules env repo_root target = Ok (app, sug) ->
  app = applicable_rules (find_applicable_rules_run env repo_root target).2 /\
  sug = suggested_rules (find_applicable_rules_run env repo_root target).2.
Proof.
  unfold find_applicable_rules.
  destruct (find_applicable_rules_run env repo_root target) as [[a|e|] st];
    [|discriminate|discriminate].
  intros [= <- <-]; split; reflexivity.
Qed.

(** C5. In every discovery call no document path is passed to the loader
    twice, and when the call returns, no path occurs twice in a result
    list or in both of them; this holds for every listing the walk may
    produce, also one that names a rules folder or a document again. *)
Theorem documents_processed_once (env : Env) (repo_root : string)
    (target : option string) :
  NoDup (loaded_files (find_applicable_rules_run env repo_root target).2) /\
  forall app sug,
    find_applicable_rules env repo_root target = Ok (app, sug) ->
    NoDup (file_path <$> app) /\ NoDup sug.*2 /\
    forall p, p ∈ file_path <$> app -> p ∉ sug.*2.
Proof.
  pose proof (find_applicable_rules_run_inv env repo_root target) as Hinv.
  split; [apply (inv_loaded_nodup _ _ _ Hinv)|].
  intros app sug Hok.
  apply find_applicable_rules_ok in Hok as [-> ->].
  pose proof (inv_results_nodup _ _ _ Hinv) as Hnd.
  unfold result_paths in Hnd. apply NoDup_app in Hnd as (Ha & Hd & Hs).
  auto.
Qed.

Lemma documents_processed_once_witness :
  loaded_files (find_applicable_rules_run twice_listed_env "/r" None).2
  = ["/r/.cursor/rules/x.mdc"] /\
  NoDup (loaded_files (find_applicable_rules_run twice_listed_env "/r" None).2)
  /\ NoDup ([("d", "/r/.cursor/rules/x.mdc")] : list (string * string)).*2.
Proof.
  split; [vm_compute; reflexivity|].
  destruct (documents_processed_once twice_listed_env "/r" None) as [H1 H2].
  split; [exact H1|].
  refine (proj1 (proj2 (H2 [] [("d", "/r/.cursor/rules/x.mdc")] _))).
  vm_compute; reflexivity.
Defined.

(** C6. In every discovery call, each document the call loaded whose
    rule has [always_apply] true has that rule in the applicable list,
    whatever the target is and whether or not one was supplied: in the
    list the call has built and, when the call returns, in the list it
    returns. *)
Theorem always_apply_rules_applicable (env : Env) (repo_root : string)
    (target : option string) (p : string) (r : Rule) :
  p ∈ loaded_files (find_applicable_rules_run env repo_root target).2 ->
  load_rule_from_file env p = Some r ->
  always_apply r = true ->
  r ∈ applicable_rules (find_applicable_rules_run env repo_root target).2 /\
  forall app sug,
    find_applicable_rules env repo_root target = Ok (app, sug) -> r ∈ app.
Proof.
  intros Hp Hload Ha.
  pose proof (find_applicable_rules_run_inv env repo_root target) as Hinv.
  pose proof (inv_always _ _ _ Hinv p r Hp Hload Ha) as Hin.
  split; [exact Hin|].
  intros app sug Hok.
  apply find_applicable_rules_ok in Hok as [-> _]. exact Hin.
Qed.

Lemma always_apply_rules_applicable_witness :
  find_applicable_rules always_repo "/r" (Some "/r/lib/x.rb")
  = Ok ([always_rule], []) /\
  always_rule ∈ [always_rule].
Proof.
  split; [vm_compute; reflexivity|].
  refine (proj2 (always_apply_rules_applicable always_repo "/r"
                   (Some "/r/lib/x.rb") "/r/.cursor/rules/style.mdc"
                   always_rule _ _ _) [always_rule] [] _).
  - vm_compute; constructor.
  - vm_compute; reflexivity.
  - reflexivity.
  - vm_compute; reflexivity.
Defined.

(** A call without a target never reaches the matcher, so it returns. *)
Section Untargeted.

Variable env : Env.
Variable target : option string.
Hypothesis no_target : supplied target = false.

Lemma returns_bind (m : M unit) (k : unit -> M unit) :
  returns_normally m -> (forall a, returns_normally (k a)) ->
  returns_normally (m ≫= k).
Proof.
  intros Hm Hk st. rewrite bind_run.
  destruct (Hm st) as [st' ->]. apply Hk.
Qed.

Lemma returns_ret : returns_normally (mret tt).
Proof. intros st; exists st; reflexivity. Qed.

Lemma returns_modify (f : Locals -> Locals) : returns_normally (modify f).
Proof. intros st; exists (f st); reflexivity. Qed.

Lemma returns_for_each {X} (xs : list X) (body : X -> M unit) :
  (forall x, returns_normally (body x)) ->
  returns_normally (for_each xs body).
Proof.
  intros Hb; induction xs as [|x xs IH]; simpl.
  - apply returns_ret.
  - apply returns_bind; [apply Hb|intros _; exact IH].
Qed.

Lemma classify_untargeted (p : string) (r : Rule) :
  returns_normally (classify env target p r).
Proof.
  unfold classify. rewrite no_target. cbn [andb].
  destruct (always_apply r); [apply returns_modify|].
  destruct (description r) as [d|]; [|apply returns_ret].
  destruct (PyStr.truthy d); [apply returns_modify|apply returns_ret].
Qed.

Lemma process_file_untargeted (root filename : string) :
  returns_normally (process_file env target root filename).
Proof.
  unfold process_file.
  destruct (PyStr.endswith filename ".mdc"); [|apply returns_ret].
  intros st. case_bool_decide; [eexists; reflexivity|].
  destruct (load_rule_from_file env _);
    [apply classify_untargeted|eexists; reflexivity].
Qed.

Lemma scan_dir_untargeted (d : string) :
  returns_normally (scan_dir env target d).
Proof.
  unfold scan_dir. destruct (isdir env _); [|apply returns_ret].
  apply returns_for_each; intros [root files].
  apply returns_for_each; intros f. apply process_file_untargeted.
Qed.

Lemma walk_up_untargeted (fuel : nat) (repo_root d : string) :
  String.length d < fuel ->
  returns_normally (walk_up env fuel repo_root target d).
Proof.
  revert d; induction fuel as [|fuel IH]; intros d Hlt; [lia|].
  rewrite walk_up_step.
  destruct (PyStr.startswith d repo_root); [|apply returns_ret].
  apply returns_bind; [apply returns_modify|intros _].
  apply returns_bind; [apply scan_dir_untargeted|intros _].
  cbv zeta. destruct (String.eqb (PosixPath.dirname d) d) eqn:E;
    [apply returns_ret|].
  apply IH. apply String.eqb_neq in E.
  pose proof (dirname_shorter d E). lia.
Qed.

Lemma untargeted_call_returns (repo_root : string) :
  exists app sug, find_applicable_rules env repo_root target = Ok (app, sug).
Proof.
  unfold find_applicable_rules, find_applicable_rules_run.
  rewrite no_target.
  edestruct (walk_up_untargeted
               (S (String.length (PosixPath.abspath (getcwd env) repo_root)))
               (PosixPath.abspath (getcwd env) repo_root)
               (PosixPath.abspath (getcwd env) repo_root)) as [st' ->];
    [lia|]. eauto.
Qed.

End Untargeted.

(** C7. In every discovery call without a target file that returns, a
    loaded rule with [always_apply] false and a non-empty pattern list is
    in the suggested list, as its description paired with its path,
    exactly when it has a description, and is in neither list when it
    has none. *)
Theorem untargeted_rule_suggested_iff_described (env : Env)
    (repo_root : string) (app : list Rule) (sug : list (string * string))
    (p : string) (r : Rule) :
  find_applicable_rules env repo_root None = Ok (app, sug) ->
  p ∈ loaded_files (find_applicable_rules_run env repo_root None).2 ->
  load_rule_from_file env p = Some r ->
  always_apply r = false ->
  globs r <> [] ->
  (p ∈ sug.*2 <-> has_description r = true) /\
  (forall d, description r = Some d -> has_description r = true ->
     (d, p) ∈ sug) /\
  (has_description r = false -> (r ∉ app) /\ (p ∉ sug.*2)).
Proof.
  intros Hok Hp Hload Ha _.
  apply find_applicable_rules_ok in Hok as [-> ->].
  pose proof (find_applicable_rules_run_inv env repo_root None) as Hinv.
  destruct (inv_untargeted _ _ _ Hinv eq_refl p r Hp Hload Ha) as [Hn Hm].
  pose proof (load_rule_from_file_path env p r Hload) as Hfp.
  assert (Hr : r ∉ applicable_rules
                 (find_applicable_rules_run env repo_root None).2).
  { intros Hin. apply Hn. rewrite <- Hfp.
    apply list_elem_of_fmap_2, Hin. }
  unfold has_description.
  destruct (description r) as [d|].
  - destruct (PyStr.truthy d) eqn:Ht.
    + repeat split; try discriminate; auto.
      * intros _. change p with ((d, p).2). apply list_elem_of_fmap_2, Hm.
      * intros d' [= <-] _; exact Hm.
    + repeat split; try discriminate; auto; intros H; contradiction.
  - repeat split; try discriminate; auto; intros H; contradiction.
Qed.

Lemma untargeted_rule_suggested_iff_described_witness :
  find_applicable_rules js_rule_repo "/r" None
  = Ok ([], [("d", "/r/.cursor/rules/x.mdc")]) /\
  ("d", "/r/.cursor/rules/x.mdc") ∈ [("d", "/r/.cursor/rules/x.mdc")].
Proof.
  split; [vm_compute; reflexivity|].
  refine (proj1 (proj2 (untargeted_rule_suggested_iff_described
            js_rule_repo "/r" [] [("d", "/r/.cursor/rules/x.mdc")]
            "/r/.cursor/rules/x.mdc" js_rule _ _ _ _ _)) "d" _ _).
  - vm_compute; reflexivity.
  - vm_compute; constructor.
  - vm_compute; reflexivity.
  - reflexivity.
  - discriminate.
  - reflexivity.
  - reflexivity.
Defined.

(** ** The renderer *)

Section Rendering.

Variable env : Env.

Lemma relpath_budget (cwd path start : string) :
  PosixPath.relpath cwd path start <> OutOfFuel.
Proof. unfold PosixPath.relpath. repeat case_match; discriminate. Qed.

Lemma render_applicable_budget (repo_root : string) (rules : list Rule)
    (result : string) :
  render_applicable env repo_root rules result <> OutOfFuel.
Proof.
  revert result; induction rules as [|r rules IH]; intros result; simpl;
    [discriminate|].
  pose proof (relpath_budget (getcwd env) (file_path r) repo_root).
  destruct (PosixPath.relpath _ _ _); [apply IH|discriminate|contradiction].
Qed.

Lemma render_suggested_budget (repo_root : string)
    (suggested : list (string * string)) (result : string) :
  render_suggested env repo_root suggested result <> OutOfFuel.
Proof.
  revert result; induction suggested as [|[d p] l IH]; intros result; simpl;
    [discriminate|].
  pose proof (relpath_budget (getcwd env) p repo_root).
  destruct (PosixPath.relpath _ _ _); [apply IH|discriminate|contradiction].
Qed.

Lemma get_applicable_rules_content_try_budget (repo_root : string)
    (target : option string) :
  get_applicable_rules_content_try env repo_root target <> OutOfFuel.
Proof.
  unfold get_applicable_rules_content_try.
  pose proof (find_applicable_rules_budget env repo_root target) as Hf.
  destruct (find_applicable_rules env repo_root target) as [[app sug]|e|];
    [|discriminate|contradiction].
  destruct (_ || _); [|discriminate].
  pose proof (render_applicable_budget repo_root app
                (nl +:+ nl +:+ "// .cursor/rules results:")) as Ha.
  destruct (render_applicable _ _ _ _) as [result|e|];
    [apply render_suggested_budget|discriminate|contradiction].
Qed.

End Rendering.

(** C8. [get_applicable_rules_content] returns a string on every input:
    it neither raises nor fails to return.  When discovery or rendering
    raises, the string is empty, and when discovery returns two empty
    lists, the string is empty. *)
Theorem get_applicable_rules_content_never_raises (env : Env)
    (repo_root : string) (target : option string) :
  (exists s, get_applicable_rules_content env repo_root target = Ok s) /\
  (forall e, find_applicable_rules env repo_root target = Raise e ->
     get_applicable_rules_content env repo_root target = Ok "") /\
  (forall e, get_applicable_rules_content_try env repo_root target = Raise e ->
     get_applicable_rules_content env repo_root target = Ok "") /\
  (find_applicable_rules env repo_root target = Ok ([], []) ->
     get_applicable_rules_content env repo_root target = Ok "").
Proof.
  unfold get_applicable_rules_content.
  repeat split.
  - pose proof (get_applicable_rules_content_try_budget env repo_root target).
    destruct (get_applicable_rules_content_try env repo_root target)
      as [s|e|]; [exists s|exists ""|contradiction]; reflexivity.
  - intros e He. unfold get_applicable_rules_content_try. rewrite He.
    reflexivity.
  - intros e He. rewrite He. reflexivity.
  - intros He. unfold get_applicable_rules_content_try. rewrite He.
    reflexivity.
Qed.

Lemma get_applicable_rules_content_never_raises_witness :
  find_applicable_rules py_tree_repo "/r" (Some "/r/app.py")
  = Raise ValueError /\
  get_applicable_rules_content py_tree_repo "/r" (Some "/r/app.py") = Ok "".
Proof.
  split; [vm_compute; reflexivity|].
  refine (proj1 (proj2 (get_applicable_rules_content_never_raises
            py_tree_repo "/r" (Some "/r/app.py"))) ValueError _).
  vm_compute; reflexivity.
Defined.

(** C10, as amended. For a pattern that does not begin with a star and a
    dot and that splits at the boundary into exactly a directory part and
    a file part not beginning with a star, the matcher returns whether
    the directory part occurs in the path string as [pathlib] writes it;
    the file part is not looked at. *)
Theorem match_directory_part_only (env : Env)
    (file_path glob_pattern dir_part file_part : string) :
  PyStr.startswith glob_pattern "*." = false ->
  PyStr.split glob_pattern "/**/" = [dir_part; file_part] ->
  PyStr.startswith file_part "*" = false ->
  match_file_with_glob env file_path glob_pattern
  = Ok (PyStr.contains dir_part (PathLib.str (PathLib.Path file_path))).
Proof.
  intros Hstar Hsplit Hfile.
  pose proof (split_two_contains _ _ _ _ Hsplit) as Hb.
  apply contains_boundary in Hb as [Hsep Hdd].
  unfold match_file_with_glob. rewrite Hstar.
  destruct (String.eqb glob_pattern "**/*.js") eqn:E1.
  { apply String.eqb_eq in E1; subst; discriminate Hsplit. }
  destruct (String.eqb glob_pattern "**/*.jsx") eqn:E2.
  { apply String.eqb_eq in E2; subst; discriminate Hsplit. }
  simpl. rewrite Hsep, Hdd, Hsplit, Hfile. reflexivity.
Qed.

Lemma match_directory_part_only_witness :
  match_file_with_glob js_rule_repo "lib/src/main.py" "src/**/index.js"
  = Ok true.
Proof.
  apply (match_directory_part_only js_rule_repo "lib/src/main.py"
           "src/**/index.js" "src" "index.js"); reflexivity.
Defined.

(** The path string the directory part is looked for in is the one
    [pathlib] writes, not the argument: a leading [./] is gone from it. *)
Lemma match_directory_part_normalised (env : Env) :
  PyStr.contains "./src" "./src/index.js" = true /\
  match_file_with_glob env "./src/index.js" "./src/**/index.js" = Ok false.
Proof. split; reflexivity. Qed.

(** With two boundaries there is no single file part, and the matcher
    raises. *)
Lemma match_two_boundaries_raises (env : Env) (file_path : string) :
  match_file_with_glob env file_path "a/**/b/**/c" = Raise ValueError.
Proof. reflexivity. Qed.

(** C10, as stated, fails: the pattern below has a separator, a double
    star and a file part without a star, and its directory part occurs
    in the path, but the pattern begins with a star and a dot, so the
    first case of the matcher answers and the answer is [False]. *)
Lemma match_directory_part_star_dot :
  PyStr.contains "/" "*.d/**/index.js" = true /\
  PyStr.contains "**" "*.d/**/index.js" = true /\
  PyStr.split "*.d/**/index.js" "/**/" = ["*.d"; "index.js"] /\
  PyStr.startswith "index.js" "*" = false /\
  PyStr.contains "*.d" "a*.d/index.js" = true /\
  PyStr.contains "*.d" (PathLib.str (PathLib.Path "a*.d/index.js")) = true /\
  match_file_with_glob js_rule_repo "a*.d/index.js" "*.d/**/index.js"
  = Ok false.
Proof. vm_compute. auto 10. Qed.

(** ** The round trip *)


Section RoundTrip.

Variable env : Env.

Hypothesis rules_folder : isdir env "/r/.cursor/rules" = true.
Hypothesis one_document :
  walk env "/r/.cursor/rules" = [("/r/.cursor/rules", ["x.mdc"])].
Hypothesis document_text :
  read_text env "/r/.cursor/rules/x.mdc" = Some roundtrip_doc.

Lemma roundtrip_load :
  load_rule_from_file env "/r/.cursor/rules/x.mdc" = Some roundtrip_rule.
Proof.
  unfold load_rule_from_file. rewrite document_text. vm_compute. reflexivity.
Qed.

Lemma roundtrip_scan (target : string) (st : Locals) :
  PyStr.truthy target = true ->
  PyStr.endswith (PathLib.name (PathLib.Path target)) ".py" = true ->
  "/r/.cursor/rules/x.mdc" ∉ processed_rule_files st ->
  scan_dir env (Some target) "/r" st
  = (Ok tt,
     append_applicable roundtrip_rule
       (mark_processed "/r/.cursor/rules/x.mdc" st)).
Proof.
  intros Ht He Hp. unfold scan_dir.
  change (PosixPath.join "/r" [".cursor"; "rules"]) with "/r/.cursor/rules".
  rewrite rules_folder, one_document. cbn [for_each]. rewrite !bind_run.
  unfold process_file.
  change (PyStr.endswith "x.mdc" ".mdc") with true. cbv iota.
  change (PosixPath.join "/r/.cursor/rules" ["x.mdc"])
    with "/r/.cursor/rules/x.mdc".
  cbv beta. rewrite bool_decide_eq_false_2 by exact Hp.
  rewrite roundtrip_load. unfold classify.
  cbn [always_apply roundtrip_rule supplied globs].
  rewrite Ht. cbn [andb]. rewrite bool_decide_eq_true_2 by discriminate.
  rewrite bind_run. unfold lift.
  change (default "" (Some target)) with target.
  cbn [any_glob_matches].
  unfold match_file_with_glob at 1. cbv zeta.
  change (PyStr.startswith "*.py" "*.") with true. cbv iota.
  change (PyStr.drop 1 "*.py") with ".py". rewrite He.
  reflexivity.
Qed.

Lemma roundtrip_discovery (target : string) :
  PyStr.truthy target = true ->
  PosixPath.dirname (PosixPath.abspath (getcwd env) target) = "/r" ->
  PyStr.endswith (PathLib.name (PathLib.Path target)) ".py" = true ->
  find_applicable_rules env "/r" (Some target) = Ok ([roundtrip_rule], []).
Proof.
  intros Ht Hd He. unfold find_applicable_rules, find_applicable_rules_run.
  change (default "" (Some target)) with target.
  cbn [supplied]. rewrite Ht, Hd.
  change (PosixPath.abspath (getcwd env) "/r") with "/r".
  change (S (String.length "/r")) with 3.
  rewrite walk_up_step.
  change (PyStr.startswith "/r" "/r") with true. cbv iota.
  rewrite bind_run. unfold modify at 1. cbv beta iota.
  rewrite bind_run.
  rewrite roundtrip_scan; [|exact Ht|exact He|simpl; apply not_elem_of_empty].
  change (PosixPath.dirname "/r") with "/".
  change (String.eqb "/" "/r") with false. cbv iota zeta.
  rewrite walk_up_step.
  change (PyStr.startswith "/" "/r") with false. cbv iota.
  reflexivity.
Qed.

Lemma roundtrip_content (target : string) :
  PyStr.truthy target = true ->
  PosixPath.dirname (PosixPath.abspath (getcwd env) target) = "/r" ->
  PyStr.endswith (PathLib.name (PathLib.Path target)) ".py" = true ->
  get_applicable_rules_content env "/r" (Some target) = Ok roundtrip_output.
Proof.
  intros Ht Hd He.
  unfold get_applicable_rules_content, get_applicable_rules_content_try.
  rewrite (roundtrip_discovery target Ht Hd He).
  rewrite bool_decide_eq_true_2 by discriminate. cbn [orb].
  cbn [render_applicable file_path payload roundtrip_rule].
  change (PosixPath.relpath (getcwd env) "/r/.cursor/rules/x.mdc" "/r")
    with (Ok (A:=string) ".cursor/rules/x.mdc").
  reflexivity.
Qed.

End RoundTrip.

(** C9. In a repository [/r] whose rules folder holds the one document
    with header [description: foo], [globs: *.py, *.md],
    [alwaysApply: false] and body [Hello], rendering the discovery for the
    target [a.py] of the repository, given by its full name or, from the
    repository as working directory, by its bare name, returns a text
    that contains [Hello] and the document's path relative to the root. *)
Theorem roundtrip_render (env : Env) (target : string) :
  isdir env "/r/.cursor/rules" = true ->
  walk env "/r/.cursor/rules" = [("/r/.cursor/rules", ["x.mdc"])] ->
  read_text env "/r/.cursor/rules/x.mdc" = Some roundtrip_doc ->
  target = "/r/a.py" \/ (target = "a.py" /\ getcwd env = "/r") ->
  exists out,
    get_applicable_rules_content env "/r" (Some target) = Ok out /\
    PyStr.contains "Hello" out = true /\
    PyStr.contains ".cursor/rules/x.mdc" out = true.
Proof.
  intros Hdir Hwalk Hread Ht. exists roundtrip_output.
  split; [|split; reflexivity].
  apply roundtrip_content; try assumption;
    destruct Ht as [->|[-> Hcwd]]; try reflexivity.
  rewrite Hcwd; reflexivity.
Qed.

Lemma roundtrip_render_witness :
  exists out,
    get_applicable_rules_content roundtrip_repo "/r" (Some "a.py") = Ok out /\
    PyStr.contains "Hello" out = true /\
    PyStr.contains ".cursor/rules/x.mdc" out = true.
Proof.
  apply (roundtrip_render roundtrip_repo "a.py").
  - reflexivity.
  - reflexivity.
  - reflexivity.
  - right; split; reflexivity.
Defined.

(** * Further properties of the module *)

(** ** More on strings *)

Lemma append_cons (c : ascii) (s t : string) :
  String c s +:+ t = String c (s +:+ t).
Proof. reflexivity. Qed.

Lemma append_nil_l (s : string) : "" +:+ s = s.
Proof. reflexivity. Qed.

Lemma append_nil_r (s : string) : s +:+ "" = s.
Proof.
  induction s as [|c s IH]; [reflexivity|].
  rewrite append_cons, IH; reflexivity.
Qed.

Lemma append_assoc (a b c : string) : (a +:+ b) +:+ c = a +:+ b +:+ c.
Proof.
  induction a as [|x a IH]; [reflexivity|].
  rewrite !append_cons, IH; reflexivity.
Qed.

Lemma prefix_cons (c : ascii) (a s : string) :
  String.prefix (String c a) (String c s) = String.prefix a s.
Proof. simpl. destruct (ascii_dec c c); [reflexivity|contradiction]. Qed.

Lemma prefix_append (a b : string) : String.prefix a (a +:+ b) = true.
Proof.
  induction a as [|c a IH]; [apply prefix_nil|].
  rewrite append_cons, prefix_cons. exact IH.
Qed.

Lemma prefix_append_r (a s t : string) :
  String.prefix a s = true -> String.prefix a (s +:+ t) = true.
Proof.
  intros H. apply prefix_split in H as [rest ->].
  rewrite append_assoc. apply prefix_append.
Qed.

Lemma prefix_drop (a s : string) :
  String.prefix a s = true -> s = a +:+ PyStr.drop (String.length a) s.
Proof.
  revert s; induction a as [|c a IH]; intros s H; [reflexivity|].
  destruct s as [|d s]; simpl in H; [discriminate|].
  destruct (ascii_dec c d) as [->|]; [|discriminate].
  rewrite append_cons. cbn [String.length PyStr.drop]. f_equal. apply IH, H.
Qed.

Lemma drop_append (a b : string) : PyStr.drop (String.length a) (a +:+ b) = b.
Proof.
  induction a as [|c a IH]; [destruct b; reflexivity|].
  rewrite append_cons. cbn [String.length PyStr.drop]. exact IH.
Qed.

Lemma contains_prefix (p s : string) :
  String.prefix p s = true -> PyStr.contains p s = true.
Proof. intros H. destruct s; cbn [PyStr.contains]; rewrite H; reflexivity. Qed.

Lemma contains_append_l (p a s : string) :
  PyStr.contains p s = true -> PyStr.contains p (a +:+ s) = true.
Proof.
  intros H; induction a as [|c a IH]; [exact H|].
  rewrite append_cons. apply contains_cons, IH.
Qed.

Lemma contains_append_r (p s b : string) :
  PyStr.contains p s = true -> PyStr.contains p (s +:+ b) = true.
Proof.
  induction s as [|c s IH]; cbn [PyStr.contains].
  - rewrite orb_false_r. intros H. destruct p; [|discriminate].
    apply contains_prefix, prefix_nil.
  - intros H. apply orb_true_iff in H as [H|H].
    + apply contains_prefix, prefix_append_r, H.
    + rewrite append_cons. apply contains_cons, IH, H.
Qed.

(** [p in a + p + b] *)
Lemma contains_middle (p a b : string) :
  PyStr.contains p (a +:+ p +:+ b) = true.
Proof. apply contains_append_l, contains_prefix, prefix_append. Qed.

Lemma chars_append (a b : string) :
  PyStr.chars (a +:+ b) = PyStr.chars a ++ PyStr.chars b.
Proof.
  induction a as [|c a IH]; [reflexivity|].
  rewrite append_cons. unfold PyStr.chars in *. cbn [list_ascii_of_string].
  rewrite IH. reflexivity.
Qed.

Lemma of_chars_app (l k : list ascii) :
  PyStr.of_chars (l ++ k) = PyStr.of_chars l +:+ PyStr.of_chars k.
Proof.
  induction l as [|c l IH]; [reflexivity|].
  unfold PyStr.of_chars in *. cbn [app string_of_list_ascii].
  rewrite IH. reflexivity.
Qed.

Lemma reverse_append (a b : string) :
  PyStr.reverse (a +:+ b) = PyStr.reverse b +:+ PyStr.reverse a.
Proof.
  unfold PyStr.reverse. rewrite chars_append, rev_app_distr. apply of_chars_app.
Qed.

Lemma reverse_involutive (s : string) : PyStr.reverse (PyStr.reverse s) = s.
Proof.
  unfold PyStr.reverse, PyStr.chars, PyStr.of_chars.
  rewrite list_ascii_of_string_of_list_ascii, rev_involutive.
  apply string_of_list_ascii_of_string.
Qed.

Lemma endswith_append (a p : string) : PyStr.endswith (a +:+ p) p = true.
Proof. unfold PyStr.endswith. rewrite reverse_append. apply prefix_append. Qed.

(** [s.endswith(p)] holds only when [s] is some text followed by [p]. *)
Lemma endswith_split (s p : string) :
  PyStr.endswith s p = true -> exists a, s = a +:+ p.
Proof.
  unfold PyStr.endswith. intros H. apply prefix_split in H as [rest H].
  exists (PyStr.reverse rest).
  rewrite <- (reverse_involutive s), H, reverse_append, reverse_involutive.
  reflexivity.
Qed.

Lemma endswith_append_l (a s p : string) :
  PyStr.endswith s p = true -> PyStr.endswith (a +:+ s) p = true.
Proof.
  intros H. apply endswith_split in H as [b ->].
  rewrite <- append_assoc. apply endswith_append.
Qed.

(** ** Splitting at a one-character separator *)

Lemma split_from_absent (sep s : string) :
  PyStr.contains sep s = false -> PyStr.split_from sep 0 s = (s, []).
Proof.
  induction s as [|c s IH]; [reflexivity|].
  cbn [PyStr.contains PyStr.split_from]. intros H.
  apply orb_false_iff in H as [Hp Hc]. rewrite Hp, (IH Hc). reflexivity.
Qed.

Lemma split_absent (s sep : string) :
  PyStr.contains sep s = false -> PyStr.split s sep = [s].
Proof. intros H. unfold PyStr.split. rewrite split_from_absent; auto. Qed.

Lemma prefix_char (x c : ascii) (s : string) :
  String.prefix (String x "") (String c s) = bool_decide (x = c).
Proof.
  simpl. destruct (ascii_dec x c) as [->|Hne].
  - rewrite prefix_nil, bool_decide_eq_true_2; reflexivity.
  - rewrite bool_decide_eq_false_2; [reflexivity|exact Hne].
Qed.

Lemma split_from_char_app (x : ascii) (a n : string) :
  PyStr.split_from (String x "") 0 (a +:+ String x "" +:+ n) =
  let '(h, t) := PyStr.split_from (String x "") 0 a in
  (h, t ++ PyStr.split n (String x "")).
Proof.
  induction a as [|c a IH].
  - rewrite append_nil_l, append_cons, append_nil_l.
    cbn [PyStr.split_from]. rewrite prefix_char, bool_decide_eq_true_2 by auto.
    cbn [String.length Nat.sub]. unfold PyStr.split.
    destruct (PyStr.split_from (String x "") 0 n); reflexivity.
  - rewrite append_cons. cbn [PyStr.split_from]. rewrite !prefix_char.
    cbn [String.length Nat.sub].
    destruct (PyStr.split_from (String x "") 0 a) as [h t].
    case_bool_decide; rewrite IH; reflexivity.
Qed.

(** [(a + x + n).split(x) == a.split(x) + n.split(x)] for a character [x] *)
Lemma split_char_app (x : ascii) (a n : string) :
  PyStr.split (a +:+ String x "" +:+ n) (String x "") =
  PyStr.split a (String x "") ++ PyStr.split n (String x "").
Proof.
  unfold PyStr.split at 1 2. rewrite split_from_char_app.
  destruct (PyStr.split_from (String x "") 0 a); reflexivity.
Qed.

(** ** The base name of a path *)

Lemma last_filter_snoc {A} (P : A -> bool) (l : list A) (x : A) :
  P x = true -> last (List.filter P (l ++ [x])) = Some x.
Proof.
  intros H. rewrite List.filter_app. simpl. rewrite H. apply last_snoc.
Qed.

Lemma part_kept (n : string) :
  n <> "" -> n <> "." ->
  PyStr.truthy n && negb (String.eqb n ".") = true.
Proof.
  intros H1 H2. destruct n as [|c n]; [contradiction|]. cbn [PyStr.truthy andb].
  destruct (String.eqb (String c n) ".") eqn:E; [|reflexivity].
  apply String.eqb_eq in E; contradiction.
Qed.

Lemma last_part_after_drop (k : nat) (a n : string) :
  is_file_name n -> k <= S (String.length a) ->
  last (List.filter (fun x => PyStr.truthy x && negb (String.eqb x "."))
          (PyStr.split (PyStr.drop k (a +:+ "/" +:+ n)) "/")) = Some n.
Proof.
  intros (Hs & H1 & H2). revert k; induction a as [|c a IH]; intros k Hk.
  - destruct k as [|[|k]]; [| |cbn in Hk; lia].
    + cbn [PyStr.drop]. rewrite (split_char_app "/" "" n).
      rewrite (split_absent n "/" Hs).
      apply last_filter_snoc, part_kept; assumption.
    + change (PyStr.drop 1 ("" +:+ "/" +:+ n)) with (PyStr.drop 0 n).
      destruct n; [contradiction|]. cbn [PyStr.drop].
      rewrite (split_absent _ "/" Hs).
      apply (last_filter_snoc _ []), part_kept; assumption.
  - destruct k as [|k].
    + cbn [PyStr.drop]. rewrite (split_char_app "/" (String c a) n).
      rewrite (split_absent n "/" Hs).
      apply last_filter_snoc, part_kept; assumption.
    + rewrite append_cons. cbn [PyStr.drop]. apply IH. cbn in Hk; lia.
Qed.

(** The name of a path that ends with a separator and a file name is that
    file name. *)
Lemma name_of_path_in_dir (a n : string) :
  is_file_name n -> PathLib.name (PathLib.Path (a +:+ "/" +:+ n)) = n.
Proof.
  intros Hn. unfold PathLib.name, PathLib.Path.
  assert (Ht : PyStr.truthy (a +:+ "/" +:+ n) = true)
    by (destruct a; reflexivity).
  rewrite Ht. unfold PathLib.splitroot.
  destruct (negb (PyStr.startswith (a +:+ "/" +:+ n) "/")).
  { cbn [PathLib.tail].
    pose proof (last_part_after_drop 0 a n Hn ltac:(lia)) as H0.
    cbn [PyStr.drop] in H0. rewrite H0. reflexivity. }
  destruct (negb _ || _) eqn:E; cbn [PathLib.tail].
  { rewrite (last_part_after_drop 1 a n Hn) by lia. reflexivity. }
  rewrite (last_part_after_drop 2 a n Hn); [reflexivity|].
  destruct a as [|c a]; [|cbn; lia].
  exfalso. apply orb_false_iff in E as [E _]. apply negb_false_iff in E.
  rewrite append_nil_l in E.
  change (PyStr.drop 1 ("/" +:+ n)) with (PyStr.drop 0 n) in E.
  destruct Hn as (Hs & _ & _).
  assert (PyStr.drop 0 n = n) as Hd by (destruct n; reflexivity).
  rewrite Hd in E. apply contains_prefix in E. congruence.
Qed.

Lemma name_of_bare_file (n : string) :
  is_file_name n -> PathLib.name (PathLib.Path n) = n.
Proof.
  intros (Hs & H1 & H2). unfold PathLib.name, PathLib.Path.
  destruct n as [|c n]; [contradiction|]. cbn [PyStr.truthy].
  unfold PathLib.splitroot.
  destruct (PyStr.startswith (String c n) "/") eqn:E.
  { apply contains_prefix in E. congruence. }
  cbn [negb PathLib.tail]. rewrite (split_absent _ "/" Hs).
  pose proof (last_filter_snoc
                (fun x => PyStr.truthy x && negb (String.eqb x "."))
                [] (String c n) (part_kept _ H1 H2)) as Hl.
  cbn [app] in Hl. rewrite Hl. reflexivity.
Qed.

(** ** The matcher, case by case *)

(** X1. [match_file_with_glob] raises exactly for the patterns that reach
    the unpacking of the split at the boundary with a number of parts
    other than two: those that do not begin with a star and a dot, are
    not one of the two double-star patterns compared whole, hold a
    separator and a double star, and do not split in two.  Whether it
    raises does not depend on the file path. *)
Theorem match_file_with_glob_raises_iff (env : Env)
    (file_path glob_pattern : string) :
  (exists e, match_file_with_glob env file_path glob_pattern = Raise e) <->
  PyStr.startswith glob_pattern "*." = false /\
  glob_pattern <> "**/*.js" /\ glob_pattern <> "**/*.jsx" /\
  PyStr.contains "/" glob_pattern = true /\
  PyStr.contains "**" glob_pattern = true /\
  length (PyStr.split glob_pattern "/**/") <> 2.
Proof.
  unfold match_file_with_glob.
  destruct (PyStr.startswith glob_pattern "*.") eqn:E1.
  { split; [intros [e H]; discriminate|intros (H & _); discriminate]. }
  destruct (String.eqb glob_pattern "**/*.js") eqn:E2.
  { apply String.eqb_eq in E2. cbn [orb].
    split; [intros [e H]; discriminate|intros (_ & H & _); contradiction]. }
  destruct (String.eqb glob_pattern "**/*.jsx") eqn:E3.
  { apply String.eqb_eq in E3. cbn [orb].
    split; [intros [e H]; discriminate|intros (_ & _ & H & _); contradiction]. }
  apply String.eqb_neq in E2, E3. cbn [orb].
  destruct (PyStr.contains "/" glob_pattern) eqn:E4; cbn [andb].
  2:{ split; [intros [e H]; discriminate|intros (_ & _ & _ & H & _)];
      discriminate. }
  destruct (PyStr.contains "**" glob_pattern) eqn:E5.
  2:{ split; [intros [e H]; discriminate|intros (_ & _ & _ & _ & H & _)];
      discriminate. }
  destruct (PyStr.split glob_pattern "/**/") as [|d [|f [|x l]]].
  - split; [intros _; repeat split; auto|intros _; eauto].
  - split; [intros _; repeat split; auto|intros _; eauto].
  - split.
    + intros [e H]. destruct (_ && _); discriminate.
    + intros (_ & _ & _ & _ & _ & H). contradiction.
  - split; [intros _; repeat split; auto; discriminate|intros _; eauto].
Qed.

Lemma match_file_without_separator (env : Env) (file_path g : string) :
  PyStr.contains "/" g = false ->
  match_file_with_glob env file_path g =
  let file_name := PathLib.name (PathLib.Path file_path) in
  if PyStr.startswith g "*." then Ok (PyStr.endswith file_name (PyStr.drop 1 g))
  else Ok (fnmatch env file_name g).
Proof.
  intros Hs. unfold match_file_with_glob. cbv zeta.
  destruct (PyStr.startswith g "*."); [reflexivity|].
  destruct (String.eqb g "**/*.js") eqn:E2.
  { apply String.eqb_eq in E2; subst; discriminate. }
  destruct (String.eqb g "**/*.jsx") eqn:E3.
  { apply String.eqb_eq in E3; subst; discriminate. }
  rewrite Hs. reflexivity.
Qed.

(** X2. A pattern without a separator is matched against the base name
    alone: for a file name [n], the answer for [n] in any directory is
    the answer for the bare [n], and it is an answer, not an exception. *)
Theorem match_without_separator_ignores_directory (env : Env)
    (dir n g : string) :
  PyStr.contains "/" g = false ->
  is_file_name n ->
  match_file_with_glob env (dir +:+ "/" +:+ n) g
  = match_file_with_glob env n g /\
  exists b, match_file_with_glob env n g = Ok b.
Proof.
  intros Hs Hn. rewrite !match_file_without_separator by exact Hs. cbv zeta.
  rewrite name_of_path_in_dir, name_of_bare_file by exact Hn.
  split; [reflexivity|]. destruct (PyStr.startswith g "*."); eauto.
Qed.

Lemma match_without_separator_ignores_directory_witness :
  match_file_with_glob js_rule_repo ("/r/src/pkg" +:+ "/" +:+ "app.js") "*.js"
  = match_file_with_glob js_rule_repo "app.js" "*.js".
Proof.
  refine (proj1 (match_without_separator_ignores_directory
                   js_rule_repo "/r/src/pkg" "app.js" "*.js" _ _)).
  - reflexivity.
  - repeat split; discriminate.
Defined.

(** X3. A bare extension wildcard matches a file in any directory exactly
    when the file's name ends with the dot and the extension, whatever
    characters the extension is made of. *)
Theorem match_extension_wildcard (env : Env) (dir n ext : string) :
  is_file_name n ->
  match_file_with_glob env (dir +:+ "/" +:+ n) ("*." +:+ ext)
  = Ok (PyStr.endswith n ("." +:+ ext)) /\
  match_file_with_glob env n ("*." +:+ ext)
  = Ok (PyStr.endswith n ("." +:+ ext)).
Proof.
  intros Hn. unfold match_file_with_glob. cbv zeta.
  change (PyStr.startswith ("*." +:+ ext) "*.")
    with (String.prefix "" ext).
  rewrite prefix_nil.
  rewrite name_of_path_in_dir, name_of_bare_file by exact Hn.
  split; reflexivity.
Qed.

Lemma match_extension_wildcard_witness :
  match_file_with_glob js_rule_repo ("src" +:+ "/" +:+ "main.go")
    ("*." +:+ "go") = Ok true.
Proof.
  refine (proj1 (match_extension_wildcard js_rule_repo "src" "main.go" "go" _)).
  repeat split; discriminate.
Defined.

(** X4. For a pattern that does not begin with a star and a dot and that
    splits at the boundary into a directory part and a file part
    beginning with a star, the matcher answers that the base name ends
    with what follows the star and the directory part occurs in the path
    string as [pathlib] writes it. *)
Theorem match_scoped_extension (env : Env)
    (file_path glob_pattern dir_part file_part : string) :
  PyStr.startswith glob_pattern "*." = false ->
  PyStr.split glob_pattern "/**/" = [dir_part; file_part] ->
  PyStr.startswith file_part "*" = true ->
  match_file_with_glob env file_path glob_pattern
  = Ok (PyStr.endswith (PathLib.name (PathLib.Path file_path))
          (PyStr.drop 1 file_part)
        && PyStr.contains dir_part (PathLib.str (PathLib.Path file_path))).
Proof.
  intros Hstar Hsplit Hfile.
  pose proof (split_two_contains _ _ _ _ Hsplit) as Hb.
  apply contains_boundary in Hb as [Hsep Hdd].
  unfold match_file_with_glob. rewrite Hstar.
  destruct (String.eqb glob_pattern "**/*.js") eqn:E1.
  { apply String.eqb_eq in E1; subst; discriminate Hsplit. }
  destruct (String.eqb glob_pattern "**/*.jsx") eqn:E2.
  { apply String.eqb_eq in E2; subst; discriminate Hsplit. }
  cbn [orb]. rewrite Hsep, Hdd, Hsplit, Hfile. cbn [andb]. cbv zeta.
  destruct (PyStr.endswith _ _); reflexivity.
Qed.

Lemma match_scoped_extension_witness :
  match_file_with_glob js_rule_repo "web/src/ui/App.jsx" "src/**/*.jsx"
  = Ok true.
Proof.
  apply (match_scoped_extension js_rule_repo "web/src/ui/App.jsx"
           "src/**/*.jsx" "src" "*.jsx"); reflexivity.
Defined.

(** ** The loader *)

Lemma partition_eq (s sep : string) :
  PyStr.partition s sep =
  if String.prefix sep s
  then Some (EmptyString, PyStr.drop (String.length sep) s)
  else match s with
       | EmptyString => None
       | String c s' =>
           match PyStr.partition s' sep with
           | Some (a, b) => Some (String c a, b)
           | None => None
           end
       end.
Proof. destruct s; reflexivity. Qed.

(** What [partition] returns are the two sides of an occurrence. *)
Lemma partition_sound (s sep a b : string) :
  PyStr.partition s sep = Some (a, b) -> s = a +:+ sep +:+ b.
Proof.
  revert a; induction s as [|c s IH]; intros a; rewrite partition_eq.
  - destruct (String.prefix sep "") eqn:E; [|discriminate].
    intros [= <- <-]. apply (prefix_drop _ _ E).
  - destruct (String.prefix sep (String c s)) eqn:E.
    + intros [= <- <-]. apply (prefix_drop _ _ E).
    + destruct (PyStr.partition s sep) as [[a' b']|]; [|discriminate].
      intros [= <- <-]. rewrite append_cons. f_equal. apply IH. reflexivity.
Qed.

Lemma delimiter_not_straddling (h rest : string) :
  String.prefix delimiter (h +:+ delimiter +:+ rest) = true ->
  h = "" \/ String.prefix (nl +:+ "---") h = true.
Proof.
  change delimiter
    with (String "010" (String "-" (String "-" (String "-"
            (String "010" ""))))).
  change (nl +:+ "---") with (String "010" "---").
  intros H.
  destruct h as [|c0 [|c1 [|c2 [|c3 h]]]]; [left; reflexivity|..]; right;
    rewrite ?append_cons, ?append_nil_l in H; cbn [String.prefix] in H |- *;
    repeat match type of H with
           | context [ascii_dec ?a ?b] =>
               destruct (ascii_dec a b); try discriminate
           end;
    subst;
    repeat match goal with
           | |- context [ascii_dec ?a ?b] =>
               destruct (ascii_dec a b); try contradiction
           end;
    try reflexivity; try discriminate; try apply prefix_nil.
Qed.

(** The header ends at the first delimiter line: when the header text
    has no line that begins with three dashes after its first, the split
    is where the document was put together. *)
Lemma partition_header (h body : string) :
  PyStr.contains (nl +:+ "---") h = false ->
  PyStr.partition (h +:+ delimiter +:+ body) delimiter = Some (h, body).
Proof.
  induction h as [|c h IH]; intros Hc; rewrite partition_eq.
  - rewrite append_nil_l, prefix_append, drop_append. reflexivity.
  - destruct (String.prefix delimiter _) eqn:E.
    + apply delimiter_not_straddling in E as [E|E]; [discriminate|].
      apply contains_prefix in E. congruence.
    + rewrite append_cons. cbn [PyStr.contains] in Hc.
      apply orb_false_iff in Hc as [_ Hc]. rewrite (IH Hc). reflexivity.
Qed.

(** X5. A document put together from a first line of three dashes, a
    header text none of whose lines after the first begins with three
    dashes, a line of three dashes and a body is loaded as a rule: its
    payload is the body without surrounding white space, its path is the
    path given, and its description and always-apply flag are read from
    that header text. *)
Theorem load_rule_from_document (env : Env) (p h body : string) :
  read_text env p = Some (("---" +:+ nl) +:+ h +:+ delimiter +:+ body) ->
  PyStr.contains (nl +:+ "---") h = false ->
  exists r,
    load_rule_from_file env p = Some r /\
    payload r = PyStr.strip body /\
    file_path r = p /\
    description r = parse_frontmatter h !! "description" /\
    always_apply r =
      String.eqb
        (PyStr.lower (default "false" (parse_frontmatter h !! "alwaysApply")))
        "true".
Proof.
  intros Hread Hh. unfold load_rule_from_file, frontmatter_match.
  rewrite Hread. unfold PyStr.startswith. rewrite prefix_append.
  change 4 with (String.length ("---" +:+ nl)). rewrite drop_append.
  change (nl +:+ "---" +:+ nl) with delimiter.
  rewrite (partition_header h body Hh).
  eexists; repeat split.
Qed.

Lemma load_rule_from_document_witness :
  exists r,
    load_rule_from_file roundtrip_repo "/r/.cursor/rules/x.mdc" = Some r /\
    payload r = "Hello".
Proof.
  destruct (load_rule_from_document roundtrip_repo "/r/.cursor/rules/x.mdc"
              ("description: foo" +:+ nl +:+ "globs: *.py, *.md" +:+ nl
               +:+ "alwaysApply: false")
              "Hello") as (r & Hr & Hp & _).
  - reflexivity.
  - reflexivity.
  - exists r. split; [exact Hr|exact Hp].
Defined.

(** X6. Every rule that [load_rule_from_file] returns comes from a file
    that could be read and whose text is a line of three dashes, a header
    text, a line of three dashes and a body; the rule's payload is that
    body without surrounding white space and its path is the path given.
    A file that cannot be read, or a text of another shape, gives no
    rule. *)
Theorem load_rule_from_file_shape (env : Env) (p : string) (r : Rule) :
  load_rule_from_file env p = Some r ->
  exists h body,
    read_text env p = Some (("---" +:+ nl) +:+ h +:+ delimiter +:+ body) /\
    payload r = PyStr.strip body /\
    file_path r = p /\
    description r = parse_frontmatter h !! "description".
Proof.
  unfold load_rule_from_file, frontmatter_match.
  destruct (read_text env p) as [content|]; [|discriminate].
  destruct (PyStr.startswith content ("---" +:+ nl)) eqn:Es; [|discriminate].
  destruct (PyStr.partition _ _) as [[h body]|] eqn:Ep; [|discriminate].
  intros [= <-]. exists h, body. repeat split.
  apply partition_sound in Ep. apply prefix_drop in Es.
  change (String.length ("---" +:+ nl)) with 4 in Es.
  rewrite Es at 1. unfold delimiter. rewrite <- Ep. reflexivity.
Qed.

Lemma load_rule_from_file_shape_witness :
  exists h body,
    read_text js_rule_repo "/r/.cursor/rules/x.mdc"
    = Some (("---" +:+ nl) +:+ h +:+ delimiter +:+ body) /\
    payload js_rule = PyStr.strip body.
Proof.
  destruct (load_rule_from_file_shape js_rule_repo "/r/.cursor/rules/x.mdc"
              js_rule) as (h & body & H1 & H2 & _).
  - vm_compute; reflexivity.
  - exists h, body. split; [exact H1|exact H2].
Defined.

Lemma split1_key_value (k v : string) :
  PyStr.contains ":" k = false ->
  PyStr.split1 (k +:+ ":" +:+ v) ":" = [k; v].
Proof.
  induction k as [|c k IH]; intros Hk.
  - rewrite append_nil_l, append_cons, append_nil_l.
    cbn [PyStr.split1]. rewrite prefix_char, bool_decide_eq_true_2 by auto.
    cbn [String.length PyStr.drop]. destruct v; reflexivity.
  - rewrite append_cons. cbn [PyStr.split1 PyStr.contains] in *.
    apply orb_false_iff in Hk as [Hp Hk]. rewrite prefix_char in Hp |- *.
    rewrite Hp, (IH Hk). reflexivity.
Qed.

Lemma frontmatter_line_assigns (fm : gmap string string) (k v : string) :
  PyStr.contains ":" k = false ->
  frontmatter_line fm (k +:+ ":" +:+ v)
  = <[PyStr.strip k := PyStr.strip v]> fm.
Proof.
  intros Hk. unfold frontmatter_line.
  rewrite (contains_middle ":" k v), (split1_key_value k v Hk). reflexivity.
Qed.

(** X7. The last line of a header decides its key: when the header text,
    which has no white space around it, ends with a line [k:v] whose key
    [k] has no colon, the header gives the key, without surrounding
    white space, the value [v], without surrounding white space, whatever
    the lines before say and whether or not [v] itself holds colons. *)
Theorem parse_frontmatter_last_line (before k v : string) :
  PyStr.strip (before +:+ nl +:+ k +:+ ":" +:+ v)
  = before +:+ nl +:+ k +:+ ":" +:+ v ->
  PyStr.contains nl (k +:+ ":" +:+ v) = false ->
  PyStr.contains ":" k = false ->
  parse_frontmatter (before +:+ nl +:+ k +:+ ":" +:+ v) !! PyStr.strip k
  = Some (PyStr.strip v).
Proof.
  intros Hstrip Hnl Hk. unfold parse_frontmatter. rewrite Hstrip.
  change nl with (String "010" "") in *.
  rewrite (split_char_app "010" before (k +:+ ":" +:+ v)).
  rewrite (split_absent _ _ Hnl), fold_left_app. cbn [fold_left].
  rewrite (frontmatter_line_assigns _ k v Hk). apply lookup_insert_eq.
Qed.

Lemma parse_frontmatter_last_line_witness :
  parse_frontmatter
    ("description: first" +:+ nl +:+ "description" +:+ ":" +:+ " use: often")
  !! "description" = Some "use: often".
Proof.
  apply (parse_frontmatter_last_line "description: first" "description"
           " use: often"); reflexivity.
Defined.

(** ** What the result lists hold *)

Section Classification.

Variable env : Env.
Variable target : option string.

Lemma classify_state (p : string) (r : Rule) (st : Locals) :
  (classify env target p r st).2
  = apply_verdict (verdict_of env target r) r p st.
Proof.
  unfold classify, verdict_of.
  destruct (always_apply r); [reflexivity|].
  destruct (_ && _).
  - rewrite bind_run. unfold lift.
    destruct (any_glob_matches _ _ _) as [[|]| |]; reflexivity.
  - destruct (description r) as [d|]; [|reflexivity].
    destruct (PyStr.truthy d); reflexivity.
Qed.

Lemma endswith_join (root filename suffix : string) :
  PyStr.endswith filename suffix = true ->
  PyStr.endswith (PosixPath.join root [filename]) suffix = true.
Proof.
  intros H. unfold PosixPath.join. cbn [fold_left]. unfold PosixPath.join2.
  destruct (PyStr.startswith filename "/"); [exact H|].
  destruct (_ || _); repeat apply endswith_append_l; exact H.
Qed.

Lemma mark_processed_classified (p : string) (st : Locals) :
  classified env target st ->
  PyStr.endswith p ".mdc" = true ->
  load_rule_from_file env p = None ->
  classified env target (mark_processed p st).
Proof.
  intros [A B S1 S2 E O1 O2] He Hnone. constructor; cbn.
  - intros r Hr. destruct (A r Hr) as (H1 & H2 & H3).
    rewrite elem_of_app; auto.
  - intros q r. rewrite elem_of_app, list_elem_of_singleton.
    intros [Hq| ->] Hl Hv; [eapply B; eauto|congruence].
  - intros d q Hq. destruct (S1 d q Hq) as (H1 & H2).
    rewrite elem_of_app; auto.
  - intros q r d. rewrite elem_of_app, list_elem_of_singleton.
    intros [Hq| ->] Hl Hv; [eapply S2; eauto|congruence].
  - intros q. rewrite elem_of_app, list_elem_of_singleton.
    intros [Hq| ->]; auto.
  - apply sublist_inserts_r, O1.
  - apply sublist_inserts_r, O2.
Qed.

Lemma apply_verdict_classified (p : string) (r : Rule) (st : Locals) :
  classified env target st ->
  PyStr.endswith p ".mdc" = true ->
  load_rule_from_file env p = Some r ->
  classified env target
    (apply_verdict (verdict_of env target r) r p (mark_processed p st)).
Proof.
  intros [A B S1 S2 E O1 O2] He Hload.
  pose proof (load_rule_from_file_path env p r Hload) as Hfp.
  destruct (verdict_of env target r) as [|d|] eqn:Hv; constructor; cbn.
  - intros r'. rewrite elem_of_app, list_elem_of_singleton.
    intros [Hr| ->].
    + destruct (A r' Hr) as (H1 & H2 & H3). rewrite elem_of_app; auto.
    + rewrite Hfp, elem_of_app, list_elem_of_singleton. auto.
  - intros q r'. rewrite !elem_of_app, !list_elem_of_singleton.
    intros [Hq| ->] Hl Hv'; [left; eapply B; eauto|right; congruence].
  - intros d q Hq. destruct (S1 d q Hq) as (H1 & H2).
    rewrite elem_of_app; auto.
  - intros q r' d. rewrite elem_of_app, list_elem_of_singleton.
    intros [Hq| ->] Hl Hv'; [eapply S2; eauto|congruence].
  - intros q. rewrite elem_of_app, list_elem_of_singleton.
    intros [Hq| ->]; auto.
  - rewrite fmap_app. cbn. rewrite Hfp. apply sublist_app; [exact O1|done].
  - apply sublist_inserts_r, O2.
  - intros r' Hr. destruct (A r' Hr) as (H1 & H2 & H3).
    rewrite elem_of_app; auto.
  - intros q r'. rewrite elem_of_app, list_elem_of_singleton.
    intros [Hq| ->] Hl Hv'; [eapply B; eauto|congruence].
  - intros d' q. rewrite !elem_of_app, !list_elem_of_singleton.
    intros [Hq|[= -> ->]].
    + destruct (S1 d' q Hq) as (H1 & H2). auto.
    + split; [right; reflexivity|exists r; auto].
  - intros q r' d'. rewrite !elem_of_app, !list_elem_of_singleton.
    intros [Hq| ->] Hl Hv'; [left; eapply S2; eauto|right; congruence].
  - intros q. rewrite elem_of_app, list_elem_of_singleton.
    intros [Hq| ->]; auto.
  - apply sublist_inserts_r, O1.
  - rewrite fmap_app. cbn. apply sublist_app; [exact O2|done].
  - intros r' Hr. destruct (A r' Hr) as (H1 & H2 & H3).
    rewrite elem_of_app; auto.
  - intros q r'. rewrite elem_of_app, list_elem_of_singleton.
    intros [Hq| ->] Hl Hv'; [eapply B; eauto|congruence].
  - intros d q Hq. destruct (S1 d q Hq) as (H1 & H2).
    rewrite elem_of_app; auto.
  - intros q r' d. rewrite elem_of_app, list_elem_of_singleton.
    intros [Hq| ->] Hl Hv'; [eapply S2; eauto|congruence].
  - intros q. rewrite elem_of_app, list_elem_of_singleton.
    intros [Hq| ->]; auto.
  - apply sublist_inserts_r, O1.
  - apply sublist_inserts_r, O2.
Qed.

Lemma process_file_classified (root filename : string) :
  preserves (classified env target) (process_file env target root filename).
Proof.
  intros st Hc. unfold process_file.
  destruct (PyStr.endswith filename ".mdc") eqn:He; [|exact Hc].
  case_bool_decide; [exact Hc|].
  pose proof (endswith_join root filename ".mdc" He) as Hp.
  destruct (load_rule_from_file env _) as [r|] eqn:Hload.
  - rewrite classify_state. apply apply_verdict_classified; assumption.
  - apply mark_processed_classified; assumption.
Qed.

Lemma walk_up_classified (fuel : nat) (repo_root current_dir : string) :
  preserves (classified env target)
    (walk_up env fuel repo_root target current_dir).
Proof.
  revert current_dir; induction fuel as [|fuel IH]; intros d.
  - intros st H; exact H.
  - rewrite walk_up_step.
    destruct (PyStr.startswith d repo_root); [|apply preserves_ret].
    apply preserves_bind.
    { intros st [A B S1 S2 E O1 O2]; constructor; assumption. }
    intros _. apply preserves_bind.
    { unfold scan_dir. destruct (isdir env _); [|apply preserves_ret].
      apply preserves_for_each; intros [root files].
      apply preserves_for_each; intros f. apply process_file_classified. }
    intros _. cbv zeta.
    destruct (String.eqb _ _); [apply preserves_ret|apply IH].
Qed.

Lemma find_applicable_rules_run_classified (repo_root : string) :
  classified env target (find_applicable_rules_run env repo_root target).2.
Proof.
  unfold find_applicable_rules_run. apply walk_up_classified.
  constructor; cbn.
  - intros r Hr; apply elem_of_nil in Hr; contradiction.
  - intros p r Hp; apply elem_of_nil in Hp; contradiction.
  - intros d p Hp; apply elem_of_nil in Hp; contradiction.
  - intros p r d Hp; apply elem_of_nil in Hp; contradiction.
  - intros p Hp; apply elem_of_nil in Hp; contradiction.
  - apply sublist_nil_l.
  - apply sublist_nil_l.
Qed.

Lemma verdict_applicable (r : Rule) :
  verdict_of env target r = Applicable <->
  always_apply r = true \/
  (always_apply r = false /\
   exists t, target = Some t /\ PyStr.truthy t = true /\
             any_glob_matches env t (globs r) = Ok true).
Proof.
  unfold verdict_of. destruct (always_apply r).
  { split; [auto|reflexivity]. }
  split.
  - destruct target as [t|]; cbn [supplied default from_option].
    + destruct (PyStr.truthy t) eqn:Ht; cbn [andb].
      * case_bool_decide.
        -- destruct (any_glob_matches env _ (globs r)) as [[|]| |] eqn:Hm;
             try discriminate.
           intros _. right. split; [reflexivity|]. exists t. auto.
        -- destruct (description r) as [d|]; [|discriminate].
           destruct (PyStr.truthy d); discriminate.
      * destruct (description r) as [d|]; [|discriminate].
        destruct (PyStr.truthy d); discriminate.
    + cbn [andb]. destruct (description r) as [d|]; [|discriminate].
      destruct (PyStr.truthy d); discriminate.
  - intros [H|(_ & t & -> & Ht & Hm)]; [discriminate|].
    cbn [supplied default from_option]. rewrite Ht. cbn [andb].
    rewrite bool_decide_eq_true_2.
    + unfold id. rewrite Hm. reflexivity.
    + intros Hg. rewrite Hg in Hm. discriminate.
Qed.

Lemma verdict_suggested (r : Rule) (d : string) :
  verdict_of env target r = Suggested d <->
  always_apply r = false /\
  (supplied target = false \/ globs r = []) /\
  description r = Some d /\ PyStr.truthy d = true.
Proof.
  unfold verdict_of. destruct (always_apply r).
  { split; [discriminate|intros (H & _); discriminate]. }
  destruct (supplied target); cbn [andb].
  - case_bool_decide as Hg.
    + split.
      * destruct (any_glob_matches _ _ _) as [[|]| |]; discriminate.
      * intros (_ & [H|H] & _); [discriminate|contradiction].
    + assert (globs r = []) as Hnil by (destruct (globs r); congruence).
      destruct (description r) as [d'|].
      * destruct (PyStr.truthy d') eqn:Ht.
        -- split; [intros [= <-]; auto|intros (_ & _ & [= <-] & _); auto].
        -- split; [discriminate|intros (_ & _ & [= <-] & H); congruence].
      * split; [discriminate|intros (_ & _ & H & _); discriminate].
  - destruct (description r) as [d'|].
    + destruct (PyStr.truthy d') eqn:Ht.
      * split; [intros [= <-]; auto|intros (_ & _ & [= <-] & _); auto].
      * split; [discriminate|intros (_ & _ & [= <-] & H); congruence].
    + split; [discriminate|intros (_ & _ & H & _); discriminate].
Qed.

End Classification.

(** X8. When discovery returns, a rule is in the applicable list exactly
    when the call loaded it from some document and either the rule
    always applies or a target was supplied and the loop over the rule's
    patterns found a match for it. *)
Theorem applicable_rules_characterised (env : Env) (repo_root : string)
    (target : option string) (app : list Rule) (sug : list (string * string))
    (r : Rule) :
  find_applicable_rules env repo_root target = Ok (app, sug) ->
  (r ∈ app <->
   exists p,
     p ∈ loaded_files (find_applicable_rules_run env repo_root target).2 /\
     load_rule_from_file env p = Some r /\
     (always_apply r = true \/
      exists t, target = Some t /\ PyStr.truthy t = true /\
                any_glob_matches env t (globs r) = Ok true)).
Proof.
  intros Hok. apply find_applicable_rules_ok in Hok as [-> _].
  pose proof (find_applicable_rules_run_classified env target repo_root) as Hc.
  split.
  - intros Hr. destruct (cl_app_sound _ _ _ Hc r Hr) as (H1 & H2 & H3).
    exists (file_path r). repeat split; auto.
    apply verdict_applicable in H3 as [H3|(_ & H3)]; auto.
  - intros (p & Hp & Hload & Hv).
    apply (cl_app_complete _ _ _ Hc p r Hp Hload).
    apply verdict_applicable.
    destruct (always_apply r); [left; reflexivity|].
    destruct Hv as [Hv|Hv]; [discriminate|right; auto].
Qed.

Lemma applicable_rules_characterised_witness :
  js_rule ∈ [js_rule].
Proof.
  refine (proj2 (applicable_rules_characterised js_rule_repo "/r"
                   (Some "/r/src/app.js") [js_rule] [] js_rule _) _).
  - vm_compute; reflexivity.
  - exists "/r/.cursor/rules/x.mdc". split; [vm_compute; constructor|].
    split; [vm_compute; reflexivity|].
    right. exists "/r/src/app.js". repeat split.
Defined.

(** X9. When discovery returns, a pair of a description and a path is in
    the suggested list exactly when the call loaded from that path a rule
    that does not always apply, that has this description, which is not
    empty, and whose patterns were not tried: no target was supplied or
    the rule has no patterns. *)
Theorem suggested_rules_characterised (env : Env) (repo_root : string)
    (target : option string) (app : list Rule) (sug : list (string * string))
    (d p : string) :
  find_applicable_rules env repo_root target = Ok (app, sug) ->
  ((d, p) ∈ sug <->
   p ∈ loaded_files (find_applicable_rules_run env repo_root target).2 /\
   exists r, load_rule_from_file env p = Some r /\
             always_apply r = false /\
             (supplied target = false \/ globs r = []) /\
             description r = Some d /\ PyStr.truthy d = true).
Proof.
  intros Hok. apply find_applicable_rules_ok in Hok as [_ ->].
  pose proof (find_applicable_rules_run_classified env target repo_root) as Hc.
  split.
  - intros Hin. destruct (cl_sug_sound _ _ _ Hc d p Hin) as (H1 & r & H2 & H3).
    split; [exact H1|]. exists r. split; [exact H2|].
    apply verdict_suggested in H3. exact H3.
  - intros (Hp & r & Hload & Hv).
    apply (cl_sug_complete _ _ _ Hc p r d Hp Hload).
    apply verdict_suggested. exact Hv.
Qed.

Lemma suggested_rules_characterised_witness :
  ("d", "/r/.cursor/rules/x.mdc")
  ∈ [("d", "/r/.cursor/rules/x.mdc"):(string * string)].
Proof.
  refine (proj2 (suggested_rules_characterised js_rule_repo "/r" None []
                   [("d", "/r/.cursor/rules/x.mdc")] "d"
                   "/r/.cursor/rules/x.mdc" _) _).
  - vm_compute; reflexivity.
  - split; [vm_compute; constructor|]. exists js_rule.
    split; [vm_compute; reflexivity|]. repeat split. left; reflexivity.
Defined.

(** X10. The patterns of a rule are tried in order and the first that
    matches or raises decides: the loop reports a match exactly when
    some pattern matches and all before it answered no, raises exactly
    when some pattern raises and all before it answered no, and reports
    no match exactly when every pattern answered no. *)
Theorem any_glob_matches_first_decides (env : Env) (t : string)
    (gs : list string) :
  let answers_no g := match_file_with_glob env t g = Ok false in
  (any_glob_matches env t gs = Ok true <->
   exists l1 g l2, gs = l1 ++ g :: l2 /\ Forall answers_no l1 /\
                   match_file_with_glob env t g = Ok true) /\
  (forall e, any_glob_matches env t gs = Raise e <->
   exists l1 g l2, gs = l1 ++ g :: l2 /\ Forall answers_no l1 /\
                   match_file_with_glob env t g = Raise e) /\
  (any_glob_matches env t gs = Ok false <-> Forall answers_no gs).
Proof.
  intros answers_no. subst answers_no.
  assert (Hgen : forall (res : outcome bool), res <> Ok false ->
            res <> OutOfFuel ->
            (any_glob_matches env t gs = res <->
             exists l1 g l2, gs = l1 ++ g :: l2 /\
               Forall (fun g => match_file_with_glob env t g = Ok false) l1 /\
               match_file_with_glob env t g = res)).
  { intros res Hres Hfuel. induction gs as [|g gs IH]; cbn [any_glob_matches].
    - split; [intros <-; contradiction|].
      intros (l1 & g & l2 & H & _). destruct l1; discriminate.
    - pose proof (match_file_with_glob_budget env t g) as Hb.
      destruct (match_file_with_glob env t g) as [[|]|e|] eqn:Hm;
        [| | |contradiction].
      + split.
        * intros <-. exists [], g, gs. auto.
        * intros (l1 & g' & l2 & Heq & Hall & Hg).
          destruct l1 as [|x l1]; injection Heq as ? ?; subst; [congruence|].
          apply Forall_cons in Hall as [Hx _]. congruence.
      + rewrite IH. split.
        * intros (l1 & g' & l2 & Heq & Hall & Hg).
          exists (g :: l1), g', l2. rewrite Heq. repeat split; auto.
        * intros (l1 & g' & l2 & Heq & Hall & Hg).
          destruct l1 as [|x l1]; injection Heq as ? ?; subst; [congruence|].
          apply Forall_cons in Hall as [_ Hall]. exists l1, g', l2. auto.
      + split.
        * intros <-. exists [], g, gs. auto.
        * intros (l1 & g' & l2 & Heq & Hall & Hg).
          destruct l1 as [|x l1]; injection Heq as ? ?; subst; [congruence|].
          apply Forall_cons in Hall as [Hx _]. congruence. }
  split; [apply Hgen; discriminate|].
  split; [intros e; apply Hgen; discriminate|]. clear Hgen.
  induction gs as [|g gs IH]; cbn [any_glob_matches].
  - split; auto.
  - destruct (match_file_with_glob env t g) as [[|]|e|] eqn:Hm.
    + split; [discriminate|]. intros H. apply Forall_cons in H as [H' _].
      congruence.
    + rewrite Forall_cons. split; [intros H; split; auto; apply IH, H|].
      intros [_ H']. apply IH, H'.
    + split; [discriminate|]. intros H. apply Forall_cons in H as [H' _].
      congruence.
    + split; [discriminate|]. intros H. apply Forall_cons in H as [H' _].
      congruence.
Qed.

(** X11. When discovery returns, the documents of the applicable rules,
    in the order of that list, and the documents of the suggestions, in
    the order of that list, are each in the order in which the call
    loaded the documents. *)
Theorem results_in_load_order (env : Env) (repo_root : string)
    (target : option string) (app : list Rule) (sug : list (string * string)) :
  find_applicable_rules env repo_root target = Ok (app, sug) ->
  (file_path <$> app) `sublist_of`
    loaded_files (find_applicable_rules_run env repo_root target).2 /\
  sug.*2 `sublist_of`
    loaded_files (find_applicable_rules_run env repo_root target).2.
Proof.
  intros Hok. apply find_applicable_rules_ok in Hok as [-> ->].
  pose proof (find_applicable_rules_run_classified env target repo_root) as Hc.
  split; [apply (cl_app_order _ _ _ Hc)|apply (cl_sug_order _ _ _ Hc)].
Qed.

Lemma results_in_load_order_witness :
  (file_path <$> [always_rule]) `sublist_of`
    loaded_files
      (find_applicable_rules_run always_repo "/r" (Some "/r/lib/x.rb")).2.
Proof.
  refine (proj1 (results_in_load_order always_repo "/r" (Some "/r/lib/x.rb")
                   [always_rule] [] _)).
  vm_compute; reflexivity.
Defined.

(** X12. Only files whose name ends with [.mdc] are loaded, in every
    call; so when discovery returns, every applicable rule and every
    suggestion comes from such a file. *)
Theorem only_mdc_files_loaded (env : Env) (repo_root : string)
    (target : option string) :
  (forall p,
     p ∈ loaded_files (find_applicable_rules_run env repo_root target).2 ->
     PyStr.endswith p ".mdc" = true) /\
  forall app sug,
    find_applicable_rules env repo_root target = Ok (app, sug) ->
    (forall r, r ∈ app -> PyStr.endswith (file_path r) ".mdc" = true) /\
    (forall d p, (d, p) ∈ sug -> PyStr.endswith p ".mdc" = true).
Proof.
  pose proof (find_applicable_rules_run_classified env target repo_root) as Hc.
  split; [apply (cl_mdc _ _ _ Hc)|].
  intros app sug Hok. apply find_applicable_rules_ok in Hok as [-> ->].
  split.
  - intros r Hr. apply (cl_mdc _ _ _ Hc).
    apply (cl_app_sound _ _ _ Hc r Hr).
  - intros d p Hp. apply (cl_mdc _ _ _ Hc).
    apply (cl_sug_sound _ _ _ Hc d p Hp).
Qed.

Lemma only_mdc_files_loaded_witness :
  PyStr.endswith "/r/.cursor/rules/x.mdc" ".mdc" = true.
Proof.
  refine (proj1 (only_mdc_files_loaded js_rule_repo "/r" None) _ _).
  vm_compute; constructor.
Defined.

(** ** The shape of the walk *)

Section Walk.

Variable env : Env.
Variable target : option string.

Lemma process_file_visited (root filename : string) (st : Locals) :
  visited_dirs (process_file env target root filename st).2 = visited_dirs st.
Proof.
  destruct (process_file_cases env target root filename st)
    as [->|[_ [[-> _]|[(r & _ & -> & _)|(r & x & _ & _ & _ & _ & ->)]]]];
    reflexivity.
Qed.

Lemma scan_dir_visited (d : string) (st : Locals) :
  visited_dirs (scan_dir env target d st).2 = visited_dirs st.
Proof.
  assert (H : preserves (fun st' => visited_dirs st' = visited_dirs st)
                (scan_dir env target d)).
  { unfold scan_dir. destruct (isdir env _); [|apply preserves_ret].
    apply preserves_for_each; intros [root files].
    apply preserves_for_each; intros f st' H.
    rewrite process_file_visited. exact H. }
  exact (H st eq_refl).
Qed.




End Walk.


(** X14. Every directory a call visits has the resolved root as a prefix
    of its name, so the walk never reaches a proper ancestor of the
    root. *)
Theorem visited_dirs_prefixed_by_root (env : Env) (repo_root : string)
    (target : option string) (d : string) :
  d ∈ visited_dirs (find_applicable_rules_run env repo_root target).2 ->
  PyStr.startswith d (resolved_root env repo_root) = true /\
  String.length (resolved_root env repo_root) <= String.length d.
Proof.
  intros Hd.
  assert (H : PyStr.startswith d (resolved_root env repo_root) = true).
  { revert d Hd. unfold find_applicable_rules_run.
    apply (walk_up_visits_prefixed env _ (resolved_root env repo_root)).
    intros d Hd. apply elem_of_nil in Hd. contradiction. }
  split; [exact H|]. apply prefix_length, H.
Qed.

Lemma visited_dirs_prefixed_by_root_witness :
  PyStr.startswith "/r/a" (resolved_root js_rule_repo "/r") = true.
Proof.
  refine (proj1 (visited_dirs_prefixed_by_root js_rule_repo "/r"
                   (Some "/r/a/b/c.py") "/r/a" _)).
  vm_compute. constructor. constructor.
Defined.

(** ** Calls that find nothing *)

Lemma walk_up_without_rules_folders (env : Env) (target : option string)
    (repo_root : string) :
  (forall d, PyStr.startswith d repo_root = true ->
     isdir env (PosixPath.join d [".cursor"; "rules"]) = false) ->
  forall fuel d st, String.length d < fuel ->
    exists st',
      walk_up env fuel repo_root target d st = (Ok tt, st') /\
      applicable_rules st' = applicable_rules st /\
      suggested_rules st' = suggested_rules st.
Proof.
  intros Hno fuel; induction fuel as [|fuel IH]; intros d st Hlt; [lia|].
  rewrite walk_up_step.
  destruct (PyStr.startswith d repo_root) eqn:Es; [|exists st; auto].
  rewrite bind_run. unfold modify at 1. cbv beta iota. rewrite bind_run.
  unfold scan_dir. rewrite (Hno d Es).
  cbv [mret M_ret]. cbv beta iota zeta.
  destruct (String.eqb (PosixPath.dirname d) d) eqn:E.
  { exists (enter_dir d st). auto. }
  apply String.eqb_neq in E. pose proof (dirname_shorter d E).
  destruct (IH (PosixPath.dirname d) (enter_dir d st)) as (st' & -> & Ha & Hs);
    [lia|].
  exists st'. auto.
Qed.

(** X15. When no directory from the one the walk starts at up to the root
    has a rules folder, discovery returns two empty lists and the
    rendering is the empty string. *)
Theorem no_rules_folder_no_rules (env : Env) (repo_root : string)
    (target : option string) :
  (forall d, PyStr.startswith d (resolved_root env repo_root) = true ->
     isdir env (PosixPath.join d [".cursor"; "rules"]) = false) ->
  find_applicable_rules env repo_root target = Ok ([], []) /\
  get_applicable_rules_content env repo_root target = Ok "".
Proof.
  intros Hno.
  assert (Hf : find_applicable_rules env repo_root target = Ok ([], [])).
  { unfold find_applicable_rules, find_applicable_rules_run.
    fold (resolved_root env repo_root). fold (start_dir env repo_root target).
    destruct (walk_up_without_rules_folders env target
                (resolved_root env repo_root) Hno
                (S (String.length (start_dir env repo_root target)))
                (start_dir env repo_root target) initial_locals)
      as (st' & -> & -> & ->); [lia|reflexivity]. }
  split; [exact Hf|].
  unfold get_applicable_rules_content, get_applicable_rules_content_try.
  rewrite Hf. reflexivity.
Qed.

Lemma no_rules_folder_no_rules_witness :
  find_applicable_rules empty_env "/r" (Some "/r/src/a.py") = Ok ([], []).
Proof.
  refine (proj1 (no_rules_folder_no_rules empty_env "/r"
                   (Some "/r/src/a.py") _)).
  intros d _. reflexivity.
Defined.

(** X16. When the name of the directory the walk would start from does
    not begin with the resolved root, no directory is visited and no
    document is loaded, whatever rules folders exist: discovery returns
    two empty lists and the rendering is the empty string. *)
Theorem target_outside_root_finds_nothing (env : Env) (repo_root : string)
    (target : option string) :
  PyStr.startswith (start_dir env repo_root target)
    (resolved_root env repo_root) = false ->
  visited_dirs (find_applicable_rules_run env repo_root target).2 = [] /\
  loaded_files (find_applicable_rules_run env repo_root target).2 = [] /\
  find_applicable_rules env repo_root target = Ok ([], []) /\
  get_applicable_rules_content env repo_root target = Ok "".
Proof.
  intros Hout.
  assert (Hrun : find_applicable_rules_run env repo_root target
                 = (Ok tt, initial_locals)).
  { unfold find_applicable_rules_run.
    fold (resolved_root env repo_root). fold (start_dir env repo_root target).
    rewrite walk_up_step, Hout. reflexivity. }
  assert (Hf : find_applicable_rules env repo_root target = Ok ([], [])).
  { unfold find_applicable_rules. rewrite Hrun. reflexivity. }
  rewrite Hrun. repeat split; try exact Hf.
  unfold get_applicable_rules_content, get_applicable_rules_content_try.
  rewrite Hf. reflexivity.
Qed.

Lemma target_outside_root_finds_nothing_witness :
  find_applicable_rules always_repo "/r" (Some "/elsewhere/a.py")
  = Ok ([], []).
Proof.
  refine (proj1 (proj2 (proj2 (target_outside_root_finds_nothing always_repo
                                 "/r" (Some "/elsewhere/a.py") _)))).
  reflexivity.
Defined.

(** X17. A call without a target (none, or the empty string) visits the
    resolved root and no other directory, and returns: it never raises. *)
Theorem untargeted_call_visits_root_only (env : Env) (repo_root : string)
    (target : option string) :
  supplied target = false ->
  visited_dirs (find_applicable_rules_run env repo_root target).2
  = [resolved_root env repo_root] /\
  exists app sug, find_applicable_rules env repo_root target = Ok (app, sug).
Proof.
  intros Hno. split; [|apply untargeted_call_returns, Hno].
  unfold find_applicable_rules_run. rewrite Hno.
  fold (resolved_root env repo_root).
  set (root := resolved_root env repo_root).
  rewrite walk_up_step. unfold PyStr.startswith at 1. rewrite prefix_refl.
  rewrite bind_run. unfold modify at 1. cbv beta iota. rewrite bind_run.
  pose proof (scan_dir_visited env target root (enter_dir root initial_locals))
    as Hv.
  destruct (scan_dir_untargeted env target Hno root
              (enter_dir root initial_locals)) as [st2 Hst2].
  rewrite Hst2 in Hv |- *. cbn in Hv. cbv zeta.
  destruct (String.eqb (PosixPath.dirname root) root) eqn:E; [exact Hv|].
  apply String.eqb_neq in E. pose proof (dirname_shorter root E) as Hlt.
  destruct (String.length root) as [|n] eqn:Hn; [lia|].
  rewrite walk_up_step.
  destruct (PyStr.startswith (PosixPath.dirname root) root) eqn:Es; [|exact Hv].
  apply prefix_length in Es. lia.
Qed.

Lemma untargeted_call_visits_root_only_witness :
  visited_dirs (find_applicable_rules_run js_rule_repo "/r/sub/.." (Some "")).2
  = [resolved_root js_rule_repo "/r/sub/.."].
Proof.
  refine (proj1 (untargeted_call_visits_root_only js_rule_repo "/r/sub/.."
                   (Some "") _)).
  reflexivity.
Defined.

(** ** The rendered text *)

Section RenderedText.

Variable env : Env.
Variable repo_root : string.

Lemma relpath_of_path (p : string) :
  PyStr.truthy p = true ->
  PosixPath.relpath (getcwd env) p repo_root = Ok (rel env repo_root p).
Proof.
  intros Hp. unfold rel, PosixPath.relpath. rewrite Hp. cbn [negb].
  destruct (_ ++ _); reflexivity.
Qed.

Lemma render_applicable_eq (rules : list Rule) (result : string) :
  (forall r, r ∈ rules -> PyStr.truthy (file_path r) = true) ->
  render_applicable env repo_root rules result
  = Ok (result +:+ concat_all (rule_block env repo_root <$> rules)).
Proof.
  revert result; induction rules as [|r rules IH]; intros result Hp.
  - cbn. rewrite append_nil_r. reflexivity.
  - cbn [render_applicable].
    rewrite relpath_of_path by (apply Hp; left).
    rewrite IH by (intros r' Hr'; apply Hp; right; exact Hr').
    cbn [fmap list_fmap concat_all fold_right]. unfold rule_block.
    rewrite !append_assoc. reflexivity.
Qed.

Lemma render_suggested_eq (suggested : list (string * string))
    (result : string) :
  (forall s, s ∈ suggested -> PyStr.truthy s.2 = true) ->
  render_suggested env repo_root suggested result
  = Ok (result +:+ concat_all (suggestion_line env repo_root <$> suggested)).
Proof.
  revert result; induction suggested as [|[d p] l IH]; intros result Hp.
  - cbn. rewrite append_nil_r. reflexivity.
  - cbn [render_suggested].
    rewrite relpath_of_path by (apply (Hp (d, p)); left).
    rewrite IH by (intros s Hs; apply Hp; right; exact Hs).
    cbn [fmap list_fmap concat_all fold_right]. unfold suggestion_line.
    cbn [fst snd]. rewrite !append_assoc. reflexivity.
Qed.

Lemma mdc_path_truthy (p : string) :
  PyStr.endswith p ".mdc" = true -> PyStr.truthy p = true.
Proof. destruct p; [discriminate|reflexivity]. Qed.

(** The text for the two lists of a call that returned *)
Lemma rendered_text (target : option string) (app : list Rule)
    (sug : list (string * string)) :
  find_applicable_rules env repo_root target = Ok (app, sug) ->
  get_applicable_rules_content_try env repo_root target
  = Ok (if bool_decide (app <> []) || bool_decide (sug <> [])
        then results_header
             +:+ concat_all (rule_block env repo_root <$> app)
             +:+ concat_all (suggestion_line env repo_root <$> sug)
        else "").
Proof.
  intros Hok. unfold get_applicable_rules_content_try. rewrite Hok.
  destruct (_ || _); [|reflexivity].
  pose proof (find_applicable_rules_run_classified env target repo_root) as Hc.
  apply find_applicable_rules_ok in Hok as [-> ->].
  rewrite render_applicable_eq.
  2:{ intros r Hr. apply mdc_path_truthy, (cl_mdc _ _ _ Hc).
      apply (cl_app_sound _ _ _ Hc r Hr). }
  rewrite render_suggested_eq.
  2:{ intros [d p] Hp. apply mdc_path_truthy, (cl_mdc _ _ _ Hc).
      apply (cl_sug_sound _ _ _ Hc d p Hp). }
  rewrite append_assoc. reflexivity.
Qed.

Lemma contains_concat_all (x s : string) (l : list string) :
  s ∈ l -> PyStr.contains x s = true ->
  PyStr.contains x (concat_all l) = true.
Proof.
  intros Hin Hx. induction l as [|y l IH]; [apply elem_of_nil in Hin; easy|].
  cbn [concat_all fold_right]. apply elem_of_cons in Hin as [<-|Hin].
  - apply contains_append_r, Hx.
  - apply contains_append_l, IH, Hin.
Qed.

End RenderedText.

(** X18. Rendering adds no failure of its own: the body of
    [get_applicable_rules_content] raises exactly when discovery raises,
    because every path it makes relative is the non-empty path of a
    loaded document; so the empty string stands for an exception only
    when [find_applicable_rules] raised. *)
Theorem rendering_raises_only_with_discovery (env : Env)
    (repo_root : string) (target : option string) (e : exn) :
  get_applicable_rules_content_try env repo_root target = Raise e <->
  find_applicable_rules env repo_root target = Raise e.
Proof.
  destruct (find_applicable_rules env repo_root target) as [[app sug]|e'|]
    eqn:Hf.
  - rewrite (rendered_text env repo_root target app sug Hf).
    split; discriminate.
  - unfold get_applicable_rules_content_try. rewrite Hf.
    split; intros [= ->]; reflexivity.
  - unfold get_applicable_rules_content_try. rewrite Hf.
    split; discriminate.
Qed.

(** X19. When discovery returns two lists that are not both empty, the
    rendering is the results line followed by one block for each
    applicable rule, in order (a line naming the rule's path relative to
    the root argument, then the payload), followed by one line for each
    suggestion, in order (its description and relative path). *)
Theorem rendering_layout (env : Env) (repo_root : string)
    (target : option string) (app : list Rule) (sug : list (string * string)) :
  find_applicable_rules env repo_root target = Ok (app, sug) ->
  app <> [] \/ sug <> [] ->
  get_applicable_rules_content env repo_root target
  = Ok (results_header
        +:+ concat_all (rule_block env repo_root <$> app)
        +:+ concat_all (suggestion_line env repo_root <$> sug)).
Proof.
  intros Hok Hne. unfold get_applicable_rules_content.
  rewrite (rendered_text env repo_root target app sug Hok).
  destruct Hne as [Hne|Hne].
  - rewrite (bool_decide_eq_true_2 _ Hne). reflexivity.
  - rewrite (bool_decide_eq_true_2 _ Hne), orb_true_r. reflexivity.
Qed.

Lemma rendering_layout_witness :
  get_applicable_rules_content js_rule_repo "/r" (Some "/r/src/app.js")
  = Ok (results_header
        +:+ concat_all (rule_block js_rule_repo "/r" <$> [js_rule])
        +:+ concat_all (suggestion_line js_rule_repo "/r" <$> [])).
Proof.
  apply (rendering_layout js_rule_repo "/r" (Some "/r/src/app.js")
           [js_rule] []).
  - vm_compute; reflexivity.
  - left; discriminate.
Defined.

(** X20. When discovery returns, the rendering contains the payload of
    every applicable rule and the description of every suggestion, each
    with the path of its document relative to the root argument. *)
Theorem rendering_contains_results (env : Env) (repo_root : string)
    (target : option string) (app : list Rule) (sug : list (string * string)) :
  find_applicable_rules env repo_root target = Ok (app, sug) ->
  exists out,
    get_applicable_rules_content env repo_root target = Ok out /\
    (forall r, r ∈ app ->
       PyStr.contains (payload r) out = true /\
       PyStr.contains (rel env repo_root (file_path r)) out = true) /\
    (forall d p, (d, p) ∈ sug ->
       PyStr.contains d out = true /\
       PyStr.contains (rel env repo_root p) out = true).
Proof.
  intros Hok. unfold get_applicable_rules_content.
  rewrite (rendered_text env repo_root target app sug Hok).
  eexists; split; [reflexivity|]. split.
  - intros r Hr.
    assert (Hne : app <> []) by (intros ->; apply elem_of_nil in Hr; easy).
    rewrite (bool_decide_eq_true_2 _ Hne). cbn [orb].
    split; apply contains_append_l, contains_append_r;
      apply (contains_concat_all _ (rule_block env repo_root r));
      try (apply list_elem_of_fmap_2, Hr); unfold rule_block.
    + rewrite <- !append_assoc. apply contains_append_l.
      apply contains_prefix, prefix_refl.
    + rewrite <- (append_assoc nl nl), <- (append_assoc _ "// Rule from ").
      apply contains_middle.
  - intros d p Hp.
    assert (Hne : sug <> []) by (intros ->; apply elem_of_nil in Hp; easy).
    rewrite (bool_decide_eq_true_2 _ Hne), orb_true_r.
    split; apply contains_append_l, contains_append_l;
      apply (contains_concat_all _ (suggestion_line env repo_root (d, p)));
      try (apply (list_elem_of_fmap_2 _ _ (d, p)), Hp);
      unfold suggestion_line; cbn [fst snd].
    + rewrite <- (append_assoc nl nl), <- (append_assoc _ "// If ").
      apply contains_middle.
    + rewrite <- !append_assoc. apply contains_append_l.
      apply contains_prefix, prefix_refl.
Qed.

Lemma rendering_contains_results_witness :
  exists out,
    get_applicable_rules_content always_repo "/r" None = Ok out /\
    PyStr.contains "Be brief." out = true.
Proof.
  destruct (rendering_contains_results always_repo "/r" None
              [always_rule] []) as (out & Hout & Ha & _).
  - vm_compute; reflexivity.
  - exists out. split; [exact Hout|].
    apply (Ha always_rule). constructor.
Defined.

(** ** The test harness *)

Module TestingFacts.

Import Testing.

Lemma unwrap_single_not_single (exc : pyexc) :
  is_single_group (unwrap_single exc) = false.
Proof.
  revert exc. fix IH 1. intros exc.
  destruct exc as [name|message exceptions]; [reflexivity|].
  destruct exceptions as [|inner [|second rest]]; [reflexivity| |reflexivity].
  exact (IH inner).
Qed.

Lemma unwrap_single_fixed (exc : pyexc) :
  is_single_group exc = false -> unwrap_single exc = exc.
Proof.
  destruct exc as [name|message [|inner [|second rest]]];
    [reflexivity|reflexivity|discriminate|reflexivity].
Qed.

Lemma unwrap_exception_groups_fixed (raised : pyexc) :
  is_single_group raised = false -> _unwrap_exception_groups raised = raised.
Proof.
  destruct raised as [name|message [|inner [|second rest]]];
    [reflexivity|reflexivity|discriminate|reflexivity].
Qed.

Lemma unwrap_exception_groups_not_single (raised : pyexc) :
  is_single_group (_unwrap_exception_groups raised) = false.
Proof.
  destruct raised as [name|message [|inner [|second rest]]];
    [reflexivity|reflexivity| |reflexivity].
  apply unwrap_single_not_single.
Qed.

Lemma replace_from_absent (old new s : string) :
  PyStr.contains old s = false -> replace_from old new 0 s = s.
Proof.
  induction s as [|c s IH]; [reflexivity|].
  cbn [PyStr.contains replace_from]. intros H.
  apply orb_false_iff in H as [Hp Hc]. rewrite Hp, (IH Hc). reflexivity.
Qed.

Lemma replace_from_skip (old new a rest : string) :
  replace_from old new (String.length a) (a +:+ rest)
  = replace_from old new 0 rest.
Proof.
  induction a as [|c a IH]; [reflexivity|].
  rewrite append_cons. cbn [String.length replace_from]. exact IH.
Qed.

Lemma replace_prefix (old new rest : string) :
  PyStr.truthy old = true ->
  replace (old +:+ rest) old new = new +:+ replace rest old new.
Proof.
  destruct old as [|c old]; [discriminate|]. intros _. unfold replace.
  rewrite append_cons. cbn [replace_from].
  rewrite <- append_cons, prefix_append.
  cbn [String.length Nat.sub]. rewrite Nat.sub_0_r, replace_from_skip.
  reflexivity.
Qed.

End TestingFacts.

(** X21. The exception that leaves [_unwrap_exception_groups] is never an
    exception group with exactly one member; an exception that is not
    such a group leaves unchanged, also a group with several members; so
    the two uses nested in [create_client_session] do what one does. *)
Theorem unwrap_exception_groups_result (raised : Testing.pyexc) :
  Testing.is_single_group (Testing._unwrap_exception_groups raised) = false /\
  (Testing.is_single_group raised = false ->
   Testing._unwrap_exception_groups raised = raised) /\
  Testing._unwrap_exception_groups (Testing._unwrap_exception_groups raised)
  = Testing._unwrap_exception_groups raised.
Proof.
  split; [apply TestingFacts.unwrap_exception_groups_not_single|].
  split; [apply TestingFacts.unwrap_exception_groups_fixed|].
  apply TestingFacts.unwrap_exception_groups_fixed.
  apply TestingFacts.unwrap_exception_groups_not_single.
Qed.

Lemma unwrap_exception_groups_result_witness :
  Testing._unwrap_exception_groups
    (Testing.ExceptionGroup "outer"
       [Testing.ExceptionGroup "inner" [Testing.PlainException "ValueError"]])
  = Testing.PlainException "ValueError" /\
  Testing._unwrap_exception_groups (Testing.PlainException "ValueError")
  = Testing.PlainException "ValueError".
Proof.
  split; [reflexivity|].
  apply (proj1 (proj2 (unwrap_exception_groups_result
                         (Testing.PlainException "ValueError")))).
  reflexivity.
Defined.

(** X22. [normalize_path] on a string, with a temporary directory set:
    a string in which the directory's name does not occur is returned as
    it is, and in a string that begins with the name, the name is
    replaced by [/tmp/test_dir] and the rest is normalised in turn. *)
Theorem normalize_path_on_strings (name s : string) :
  PyStr.truthy name = true ->
  (PyStr.contains name s = false ->
   Testing.normalize_path (Some name) (Testing.VStr s) = Testing.VStr s) /\
  Testing.normalize_path (Some name) (Testing.VStr (name +:+ s))
  = Testing.VStr ("/tmp/test_dir" +:+ Testing.replace s name "/tmp/test_dir").
Proof.
  intros Hn. unfold Testing.normalize_path. rewrite Hn. split.
  - intros Hc. unfold Testing.replace.
    rewrite TestingFacts.replace_from_absent by exact Hc. reflexivity.
  - rewrite TestingFacts.replace_prefix by exact Hn. reflexivity.
Qed.

Lemma normalize_path_on_strings_witness :
  Testing.normalize_path (Some "/tmp/abc123")
    (Testing.VStr ("/tmp/abc123" +:+ "/README.md"))
  = Testing.VStr "/tmp/test_dir/README.md".
Proof.
  rewrite (proj2 (normalize_path_on_strings "/tmp/abc123" "/README.md"
                    eq_refl)).
  reflexivity.
Defined.

(** ** Where an exception of discovery comes from *)

Section Exceptions.

Variable env : Env.

Lemma raises_from_patterns_ret (target : option string) : raises_from_patterns env target (mret tt).
Proof. intros st H; exact H. Qed.

Lemma raises_from_patterns_bind (target : option string) (m : M unit) (k : unit -> M unit) :
  raises_from_patterns env target m ->
  (forall a, raises_from_patterns env target (k a)) ->
  raises_from_patterns env target (m ≫= k).
Proof.
  intros Hm Hk st H. rewrite bind_run. specialize (Hm st H).
  destruct (m st) as [[a|e|] st']; [apply Hk, Hm|exact Hm|exact I].
Qed.

Lemma raises_from_patterns_for_each {X} (target : option string)
    (xs : list X) (body : X -> M unit) :
  (forall x, raises_from_patterns env target (body x)) ->
  raises_from_patterns env target (for_each xs body).
Proof.
  intros Hb; induction xs as [|x xs IH]; cbn [for_each].
  - apply raises_from_patterns_ret.
  - apply raises_from_patterns_bind; [apply Hb|intros _; exact IH].
Qed.

Lemma no_pattern_raised_mark (target : option string) (p : string) (st : Locals) :
  no_pattern_raised env target st ->
  (forall e, ~ pattern_loop_raises env target p e) ->
  no_pattern_raised env target (mark_processed p st).
Proof.
  intros H Hp q e. cbn. rewrite elem_of_app, list_elem_of_singleton.
  intros [Hq| ->]; [apply H, Hq|apply Hp].
Qed.

Lemma process_file_raises_from_patterns (target : option string)
    (root filename : string) :
  raises_from_patterns env target (process_file env target root filename).
Proof.
  intros st H. unfold process_file.
  destruct (PyStr.endswith filename ".mdc"); [|exact H].
  case_bool_decide; [exact H|].
  set (p := PosixPath.join root [filename]).
  destruct (load_rule_from_file env p) as [r|] eqn:Hload.
  2:{ apply no_pattern_raised_mark; [exact H|].
      intros e (r & t & Hl & _). congruence. }
  unfold classify. destruct (always_apply r) eqn:Ha.
  { cbn. intros q e Hq. apply (no_pattern_raised_mark target p st H);
      [|exact Hq]. intros e' (r' & t & Hl & Ha' & _). congruence. }
  destruct (supplied target && bool_decide (globs r <> [])) eqn:Hs.
  - apply andb_true_iff in Hs as [Hs _].
    destruct target as [t|]; [|discriminate]. cbn [supplied] in Hs.
    rewrite bind_run. unfold lift. cbn [default from_option]. unfold id.
    destruct (any_glob_matches env t (globs r)) as [b|e|] eqn:Hm;
      [|exists p; split;
         [cbn; rewrite elem_of_app, list_elem_of_singleton; auto
         |exists r, t; auto]
       |exact I].
    assert (Hn : no_pattern_raised env (Some t) (mark_processed p st)).
    { apply no_pattern_raised_mark; [exact H|].
      intros e (r' & t' & Hl & _ & [= <-] & _ & Hr). congruence. }
    destruct b; exact Hn.
  - assert (Hn : no_pattern_raised env target (mark_processed p st)).
    { apply no_pattern_raised_mark; [exact H|].
      intros e (r' & t & Hl & _ & -> & Ht & Hr).
      assert (r' = r) by congruence; subst r'.
      cbn [supplied] in Hs. rewrite Ht in Hs. cbn [andb] in Hs.
      apply bool_decide_eq_false in Hs.
      destruct (globs r); [discriminate|]. apply Hs. discriminate. }
    destruct (description r) as [d|]; [|exact Hn].
    destruct (PyStr.truthy d); exact Hn.
Qed.

Lemma walk_up_raises_from_patterns (target : option string) (fuel : nat)
    (repo_root d : string) :
  raises_from_patterns env target (walk_up env fuel repo_root target d).
Proof.
  revert d; induction fuel as [|fuel IH]; intros d.
  - intros st H. exact I.
  - rewrite walk_up_step.
    destruct (PyStr.startswith d repo_root);
      [|apply raises_from_patterns_ret].
    apply raises_from_patterns_bind; [intros st H; exact H|intros _].
    apply raises_from_patterns_bind.
    { unfold scan_dir. destruct (isdir env _);
        [|apply raises_from_patterns_ret].
      apply raises_from_patterns_for_each; intros [root files].
      apply raises_from_patterns_for_each; intros f.
      apply process_file_raises_from_patterns. }
    intros _. cbv zeta.
    destruct (String.eqb _ _); [apply raises_from_patterns_ret|apply IH].
Qed.

End Exceptions.

(** X23. Discovery raises exactly when, for one of the documents it
    loaded, the loop over the patterns of the rule raised: the rule does
    not always apply, a target was supplied, and one of the rule's
    patterns made the matcher raise before any pattern matched.  One
    such pattern in one rule makes the whole call raise. *)
Theorem discovery_raises_iff (env : Env) (repo_root : string)
    (target : option string) :
  (exists e, find_applicable_rules env repo_root target = Raise e) <->
  exists p r t e,
    p ∈ loaded_files (find_applicable_rules_run env repo_root target).2 /\
    load_rule_from_file env p = Some r /\ always_apply r = false /\
    target = Some t /\ PyStr.truthy t = true /\
    any_glob_matches env t (globs r) = Raise e.
Proof.
  pose proof (find_applicable_rules_budget env repo_root target) as Hb.
  unfold find_applicable_rules in *. unfold find_applicable_rules_run in *.
  pose proof (walk_up_raises_from_patterns env target
                (S (String.length (start_dir env repo_root target)))
                (resolved_root env repo_root)
                (start_dir env repo_root target) initial_locals) as H.
  unfold start_dir, resolved_root in H.
  destruct (walk_up env _ _ target _ initial_locals) as [[[]|e|] st];
    cbn [snd].
  - split; [intros [e He]; discriminate|].
    intros (p & r & t & e & Hp & Hrest). exfalso.
    assert (Hn : no_pattern_raised env target st).
    { apply H. intros q e' Hq. apply elem_of_nil in Hq. contradiction. }
    apply (Hn p e Hp). exists r, t. exact Hrest.
  - split; [intros _|eauto].
    destruct H as (p & Hp & r & t & Hrest).
    { intros q e' Hq. apply elem_of_nil in Hq. contradiction. }
    exists p, r, t, e. auto.
  - contradiction.
Qed.

(** ** The patterns of a loaded rule *)

Lemma contains_char_In (x : ascii) (s : string) :
  PyStr.contains (String x "") s = true <-> In x (PyStr.chars s).
Proof.
  induction s as [|c s IH].
  - cbn. split; [discriminate|contradiction].
  - cbn [PyStr.contains]. rewrite prefix_char, orb_true_iff, IH.
    rewrite bool_decide_eq_true. cbn. split; intros [H|H]; auto.
Qed.

Lemma lstrip_chars (x : ascii) (s : string) :
  In x (PyStr.chars (PyStr.lstrip s)) -> In x (PyStr.chars s).
Proof.
  induction s as [|c s IH]; [exact (fun H => H)|].
  cbn [PyStr.lstrip]. destruct (PyStr.isspace c); [|exact (fun H => H)].
  intros H. right. apply IH, H.
Qed.

Lemma reverse_chars (s : string) :
  PyStr.chars (PyStr.reverse s) = rev (PyStr.chars s).
Proof.
  unfold PyStr.reverse, PyStr.chars, PyStr.of_chars.
  apply list_ascii_of_string_of_list_ascii.
Qed.

Lemma strip_chars (x : ascii) (s : string) :
  In x (PyStr.chars (PyStr.strip s)) -> In x (PyStr.chars s).
Proof.
  unfold PyStr.strip, PyStr.rstrip. rewrite reverse_chars.
  intros H. apply in_rev, lstrip_chars in H.
  rewrite reverse_chars in H. apply in_rev, lstrip_chars in H. exact H.
Qed.

Lemma strip_without_char (x : ascii) (s : string) :
  PyStr.contains (String x "") s = false ->
  PyStr.contains (String x "") (PyStr.strip s) = false.
Proof.
  intros H. destruct (PyStr.contains _ (PyStr.strip s)) eqn:E; [|reflexivity].
  apply contains_char_In, strip_chars, contains_char_In in E. congruence.
Qed.

Lemma split_from_pieces_without_char (x : ascii) (s h : string)
    (t : list string) :
  PyStr.split_from (String x "") 0 s = (h, t) ->
  PyStr.contains (String x "") h = false /\
  Forall (fun g => PyStr.contains (String x "") g = false) t.
Proof.
  revert h t; induction s as [|c s IH]; intros h t.
  - intros [= <- <-]. split; [reflexivity|constructor].
  - cbn [PyStr.split_from]. rewrite prefix_char.
    cbn [String.length Nat.sub].
    destruct (PyStr.split_from (String x "") 0 s) as [h' t'].
    destruct (IH h' t' eq_refl) as [Hh Ht].
    case_bool_decide as Hx; intros [= <- <-].
    + split; [reflexivity|constructor; assumption].
    + split; [|exact Ht]. cbn [PyStr.contains].
      rewrite prefix_char, Hh, (bool_decide_eq_false_2 _ Hx). reflexivity.
Qed.

(** X24. No pattern of a loaded rule contains a comma: the value of the
    [globs] key is cut at every comma, so an alternative in braces is
    not one pattern but two. *)
Theorem globs_without_comma (env : Env) (p : string) (r : Rule) :
  load_rule_from_file env p = Some r ->
  Forall (fun g => PyStr.contains "," g = false) (globs r).
Proof.
  unfold load_rule_from_file.
  destruct (read_text env p) as [content|]; [|discriminate].
  destruct (frontmatter_match content) as [[h body]|]; [|discriminate].
  intros [= <-]. cbn [globs].
  destruct (parse_frontmatter h !! "globs") as [v|]; [|constructor].
  destruct (PyStr.truthy v); [|constructor].
  unfold PyStr.split.
  destruct (PyStr.split_from "," 0 v) as [g gs] eqn:Hs.
  apply (split_from_pieces_without_char ","%char) in Hs as [Hg Hgs].
  apply Forall_fmap, Forall_cons. split.
  - apply (strip_without_char ","%char), Hg.
  - eapply Forall_impl; [exact Hgs|].
    intros g' Hg'. apply (strip_without_char ","%char), Hg'.
Qed.

Lemma globs_without_comma_witness :
  (load_rule_from_file brace_repo "/r/.cursor/rules/scripts.mdc"
   = Some {| description := Some "scripts";
             globs := ["*.{js"; "ts}"];
             always_apply := false;
             payload := "Use strict mode.";
             file_path := "/r/.cursor/rules/scripts.mdc" |}) /\
  Forall (fun g => PyStr.contains "," g = false) ["*.{js"; "ts}"].
Proof.
  assert (H : load_rule_from_file brace_repo "/r/.cursor/rules/scripts.mdc"
              = Some {| description := Some "scripts";
                        globs := ["*.{js"; "ts}"];
                        always_apply := false;
                        payload := "Use strict mode.";
                        file_path := "/r/.cursor/rules/scripts.mdc" |})
    by (vm_compute; reflexivity).
  split; [exact H|]. exact (globs_without_comma _ _ _ H).
Defined.

(** X25. [get_applicable_rules_content] returns the empty string in two
    cases only: discovery raised, or it returned two empty lists.  The
    caller cannot tell the two apart. *)
Theorem empty_rendering_iff (env : Env) (repo_root : string)
    (target : option string) :
  get_applicable_rules_content env repo_root target = Ok "" <->
  (exists e, find_applicable_rules env repo_root target = Raise e) \/
  find_applicable_rules env repo_root target = Ok ([], []).
Proof.
  unfold get_applicable_rules_content.
  destruct (find_applicable_rules env repo_root target) as [[app sug]|e|]
    eqn:Hf.
  - rewrite (rendered_text env repo_root target app sug Hf).
    destruct app as [|r app]; [destruct sug as [|s sug]|].
    + split; auto.
    + rewrite (bool_decide_eq_true_2 (s :: sug <> [])) by discriminate.
      rewrite orb_true_r.
      split; [discriminate|intros [[e He]|He]; discriminate].
    + rewrite (bool_decide_eq_true_2 (r :: app <> [])) by discriminate.
      split; [discriminate|intros [[e' He]|He]; discriminate].
  - unfold get_applicable_rules_content_try. rewrite Hf.
    split; [eauto|reflexivity].
  - unfold get_applicable_rules_content_try. rewrite Hf.
    split; [discriminate|intros [[e He]|He]; discriminate].
Qed.
